(** * KeyAuth admin bot: the command dispatcher and the API client

    A shallow embedding of [src/index.ts] (the interaction handler, the
    admin allow-list, the embed helper) and of [src/keyauth.ts] (the
    [KeyAuthClient] class), followed by the properties proved about them.

    Conventions of the embedding.
    - A JavaScript string is a [string]: the sequence of the bytes of its
      UTF-8 encoding, so the literals of the source (emoji included) are
      written as they stand.
    - A value of type [any] (a parsed JSON body, the [info] payload) is a
      [jsval]; numbers are integers, printed in plain decimal (as
      JavaScript prints the integers it represents exactly).
    - Asynchronous code is run sequentially: an [await] is a bind of the
      monad [M], whose state holds the client object, the requests sent so
      far, the random identifiers drawn and the replies made.
    - What the program cannot decide (the upstream's answers, the random
      identifiers, the host's date parsing and formatting, the process
      environment) is a field of [Env].
    - The console output of the handler and of the client is left out;
      at the start of the bot the platform (the REST registration and the
      gateway login) is a [Platform]. *)

From Stdlib Require Import ZArith List String Ascii Bool Lia.
From Stdlib Require Import DecimalString DecimalZ.
Import ListNotations.

Open Scope string_scope.
Open Scope Z_scope.

(** ** Strings *)

Module JsString.

(** The string made of the given bytes. *)
Definition bytes (l : list nat) : string :=
  fold_right (fun n s => String (ascii_of_nat n) s) "" l.

(** The UTF-8 encodings of the code points [String.prototype.trim]
    removes: WhiteSpace (TAB, VT, FF, SP, NBSP, ZWNBSP and the category
    Zs) and LineTerminator (LF, CR, LS, PS). *)
Definition whitespace_codes : list (list nat) :=
  [ [9]; [10]; [11]; [12]; [13]; [32];
    [194; 160];                      (* U+00A0 *)
    [225; 154; 128];                 (* U+1680 *)
    [226; 128; 128]; [226; 128; 129]; [226; 128; 130]; [226; 128; 131];
    [226; 128; 132]; [226; 128; 133]; [226; 128; 134]; [226; 128; 135];
    [226; 128; 136]; [226; 128; 137]; [226; 128; 138]; (* U+2000..U+200A *)
    [226; 128; 168]; [226; 128; 169]; (* U+2028, U+2029 *)
    [226; 128; 175];                 (* U+202F *)
    [226; 129; 159];                 (* U+205F *)
    [227; 128; 128];                 (* U+3000 *)
    [239; 187; 191] ]%nat.           (* U+FEFF *)

Definition whitespace : list string := map bytes whitespace_codes.

Definition reverse (s : string) : string :=
  string_of_list_ascii (rev (list_ascii_of_string s)).

(** [strip_prefix p s] is the rest of [s] after its prefix [p]. *)
Fixpoint strip_prefix (p s : string) : option string :=
  match p, s with
  | EmptyString, _ => Some s
  | String a p', String b s' =>
      if Ascii.eqb a b then strip_prefix p' s' else None
  | String _ _, EmptyString => None
  end.

Fixpoint strip_any (ps : list string) (s : string) : option string :=
  match ps with
  | [] => None
  | p :: ps' =>
      match strip_prefix p s with
      | Some r => Some r
      | None => strip_any ps' s
      end
  end.

(** Removes leading members of [ps], at most [fuel] of them. *)
Fixpoint strip_leading (ps : list string) (fuel : nat) (s : string) : string :=
  match fuel with
  | O => s
  | S fuel' =>
      match strip_any ps s with
      | Some r => strip_leading ps fuel' r
      | None => s
      end
  end.

Definition trimStart (s : string) : string :=
  strip_leading whitespace (String.length s) s.

Definition trimEnd (s : string) : string :=
  reverse (strip_leading (map reverse whitespace) (String.length s) (reverse s)).

(** [s.trim()] *)
Definition trim (s : string) : string := trimEnd (trimStart s).

(** [s.split(',')] *)
Fixpoint split_comma (s : string) : list string :=
  match s with
  | EmptyString => [""]
  | String c rest =>
      if Ascii.eqb c ","%char then "" :: split_comma rest
      else match split_comma rest with
           | h :: t => String c h :: t
           | [] => [String c ""]
           end
  end.

(** [Boolean(s)]: a string is truthy when it is not empty. *)
Definition nonempty (s : string) : bool :=
  match s with EmptyString => false | String _ _ => true end.

(** [n.toString()] and the template-literal rendering of an integer. *)
Definition of_Z (z : Z) : string := NilZero.string_of_int (Z.to_int z).



End JsString.

(** ** JavaScript values and exceptions *)

(** A thrown exception: the error's [name] and its [message]. *)
Record exn := Thrown { err_name : string; err_message : string }.

(** [new Error(message)] *)
Definition Error (message : string) : exn := Thrown "Error" message.
Definition TypeError (message : string) : exn := Thrown "TypeError" message.

(** The outcome of an evaluation that may throw. *)
Inductive Result (A : Type) : Type :=
| Ok (a : A)
| Throw (e : exn).
Arguments Ok {A} a.
Arguments Throw {A} e.

Definition rbind {A B} (r : Result A) (k : A -> Result B) : Result B :=
  match r with
  | Ok a => k a
  | Throw e => Throw e
  end.

#[local] Set Warnings "-register-all".

(** A value of type [any], as [JSON.parse] builds it ([JUndefined] is what
    reading an absent property gives).  The members of an object are its
    own properties in insertion order, with distinct keys. *)
Inductive jsval : Type :=
| JUndefined
| JNull
| JBool (b : bool)
| JNum (z : Z)
| JStr (s : string)
| JArr (elements : list jsval)
| JObj (members : list (string * jsval)).

Module Js.

(** [Boolean(v)], the test of [if], [?:], [&&], [||] and [!]. *)
Definition truthy (v : jsval) : bool :=
  match v with
  | JUndefined | JNull => false
  | JBool b => b
  | JNum z => negb (z =? 0)
  | JStr s => JsString.nonempty s
  | JArr _ | JObj _ => true
  end.

(** [a || b] *)
Definition or (a b : jsval) : jsval := if truthy a then a else b.

Fixpoint assoc {V} (k : string) (l : list (string * V)) : option V :=
  match l with
  | [] => None
  | (k', v) :: l' => if String.eqb k k' then Some v else assoc k l'
  end.

(** [v.k] for a data property name [k] (one that no built-in prototype
    defines, which holds of every name the program reads).  The message
    of the TypeError is V8's. *)
Definition get (v : jsval) (k : string) : Result jsval :=
  match v with
  | JUndefined =>
      Throw (TypeError ("Cannot read properties of undefined (reading '" ++ k ++ "')"))
  | JNull =>
      Throw (TypeError ("Cannot read properties of null (reading '" ++ k ++ "')"))
  | JObj members =>
      match assoc k members with
      | Some x => Ok x
      | None => Ok JUndefined
      end
  | JBool _ | JNum _ | JStr _ | JArr _ => Ok JUndefined
  end.

Definition has_own (k : string) (members : list (string * jsval)) : bool :=
  match assoc k members with Some _ => true | None => false end.

(** [ToString(v)], the conversion a template literal and
    [URLSearchParams] apply.  An array is joined with commas, its
    [null] and [undefined] elements rendered empty; an object whose own
    member shadows [toString] has no primitive value. *)
Fixpoint ToString (v : jsval) : Result string :=
  match v with
  | JUndefined => Ok "undefined"
  | JNull => Ok "null"
  | JBool true => Ok "true"
  | JBool false => Ok "false"
  | JNum z => Ok (JsString.of_Z z)
  | JStr s => Ok s
  | JArr elements =>
      let element (x : jsval) : Result string :=
        match x with
        | JUndefined | JNull => Ok ""
        | _ => ToString x
        end in
      (fix join (l : list jsval) : Result string :=
         match l with
         | [] => Ok ""
         | [x] => element x
         | x :: l' =>
             rbind (element x) (fun s =>
             rbind (join l') (fun r => Ok (s ++ "," ++ r)))
         end) elements
  | JObj members =>
      if has_own "toString" members
      then Throw (TypeError "Cannot convert object to primitive value")
      else Ok "[object Object]"
  end.

(** [v?.toString()] *)
Definition toString_opt (what : string) (v : jsval) : Result jsval :=
  match v with
  | JUndefined | JNull => Ok JUndefined
  | JObj members =>
      if has_own "toString" members
      then Throw (TypeError (what ++ " is not a function"))
      else Ok (JStr "[object Object]")
  | _ => rbind (ToString v) (fun s => Ok (JStr s))
  end.

(** An object literal [{ k1: v1, ..., ...spread }]: a later key
    replaces the value of an earlier equal key, in place. *)
Fixpoint set_member {V} (k : string) (v : V) (l : list (string * V))
  : list (string * V) :=
  match l with
  | [] => [(k, v)]
  | (k', v') :: l' =>
      if String.eqb k k' then (k, v) :: l' else (k', v') :: set_member k v l'
  end.

Definition object_literal {V} (entries : list (string * V)) : list (string * V) :=
  fold_left (fun o kv => set_member (fst kv) (snd kv) o) entries [].

End Js.

(** ** The environment of the program *)

(** A request handed to [fetch]: the URL, the method, the headers and the
    entries of the [URLSearchParams] whose [toString()] is the body. *)
Record Request := {
  req_url : string;
  req_method : string;
  req_headers : list (string * string);
  req_body : list (string * string)
}.

(** What [response.json()] finds: a body that does not parse (it rejects
    with a SyntaxError of the given message) or the parsed value. *)
Inductive Body :=
| BadJson (message : string)
| Json (data : jsval).

Record Response := {
  status : Z;
  statusText : string;
  body : Body
}.

(** What [fetch] does with a request: it rejects (a network-level
    failure, a TypeError of the given message) or resolves to a response. *)
Inductive FetchOutcome :=
| NetworkError (message : string)
| Responds (r : Response).

Record Env := {
  (** [process.env] *)
  process_env : string -> option string;
  (** the upstream's answer to a request, given the requests before it *)
  upstream : list Request -> Request -> FetchOutcome;
  (** the [n]-th identifier [crypto.randomUUID()] returns *)
  randomUUID : nat -> string;
  (** [Date.parse] on a string: the time value, [None] for NaN *)
  Date_parse : string -> option Z;
  (** [toLocaleDateString()] of a valid time value, in the host's locale
      and time zone *)
  format_date : Z -> string
}.

(** ** The state of the process *)

Record KeyAuthConfig := {
  name : string;
  ownerid : string;
  version : string;
  url : string
}.

Record KeyAuthClient := {
  config : KeyAuthConfig;
  sessionId : option jsval
}.

Record EmbedField := {
  field_name : string;
  field_value : jsval;
  field_inline : bool
}.

(** An [EmbedBuilder] (the timestamp left out). *)
Record Embed := {
  title : string;
  description : jsval;
  color : Z;
  fields : list EmbedField
}.

Record Reply := {
  embeds : list Embed;
  ephemeral : bool
}.

Record State := {
  keyAuth : KeyAuthClient;
  sent : list Request;
  uuids_drawn : nat;
  replies : list Reply
}.

(** ** The monad of the asynchronous code *)

Definition M (A : Type) : Type := State -> Result A * State.

Definition ret {A} (a : A) : M A := fun st => (Ok a, st).

Definition bind {A B} (m : M A) (k : A -> M B) : M B :=
  fun st =>
    match m st with
    | (Ok a, st') => k a st'
    | (Throw e, st') => (Throw e, st')
    end.

Definition throw {A} (e : exn) : M A := fun st => (Throw e, st).

(** [try { m } catch (error) { handler error }] *)
Definition try_catch {A} (m : M A) (handler : exn -> M A) : M A :=
  fun st =>
    match m st with
    | (Ok a, st') => (Ok a, st')
    | (Throw e, st') => handler e st'
    end.

Definition lift {A} (r : Result A) : M A := fun st => (r, st).

Declare Scope monad_scope.
Delimit Scope monad_scope with monad.
Notation "x <- m ;; k" := (bind m (fun x => k))
  (at level 61, m at next level, right associativity) : monad_scope.
Notation "m ;;; k" := (bind m (fun _ => k))
  (at level 61, right associativity) : monad_scope.
Open Scope monad_scope.

(** ** [keyauth.ts] *)

Definition getenv (E : Env) (k : string) : string :=
  match process_env E k with
  | Some v => v
  | None => ""
  end.

(** [process.env.K || fallback] *)
Definition env_or (E : Env) (k fallback : string) : string :=
  if JsString.nonempty (getenv E k) then getenv E k else fallback.

Definition form_headers : list (string * string) :=
  [("Content-Type", "application/x-www-form-urlencoded");
   ("User-Agent", "KeyAuth-Discord-Bot/1.0")].

Definition post (to : string) (params : list (string * string)) : Request :=
  {| req_url := to; req_method := "POST";
     req_headers := form_headers; req_body := params |}.

Section Client.

Variable E : Env.

(** [new KeyAuthClient()] *)
Definition KeyAuthClient_new : Result KeyAuthClient :=
  let config := {|
    name := env_or E "KEYAUTH_NAME" "";
    ownerid := env_or E "KEYAUTH_OWNER_ID" "";
    version := env_or E "KEYAUTH_VERSION" "2.0";
    url := env_or E "KEYAUTH_URL" "https://keyauth.win/api/1.3/" |} in
  if negb (JsString.nonempty (name config)) || negb (JsString.nonempty (ownerid config))
  then Throw (Error "KeyAuth configuration is missing. Please set KEYAUTH_NAME and KEYAUTH_OWNER_ID environment variables.")
  else Ok {| config := config; sessionId := None |}.

(** [await fetch(url, { method: 'POST', headers, body })] *)
Definition fetch (r : Request) : M Response :=
  fun st =>
    let st' := {| keyAuth := keyAuth st; sent := sent st ++ [r];
                  uuids_drawn := uuids_drawn st; replies := replies st |} in
    match upstream E (sent st) r with
    | NetworkError message => (Throw (TypeError message), st')
    | Responds response => (Ok response, st')
    end.

(** [response.ok] *)
Definition ok (r : Response) : bool := (200 <=? status r) && (status r <=? 299).

(** [await response.json()] *)
Definition json (r : Response) : M jsval :=
  match body r with
  | BadJson message => throw (Thrown "SyntaxError" message)
  | Json data => ret data
  end.

Definition this_config : M KeyAuthConfig :=
  fun st => (Ok (config (keyAuth st)), st).

Definition this_sessionId : M (option jsval) :=
  fun st => (Ok (sessionId (keyAuth st)), st).

(** [this.sessionId = v] *)
Definition set_sessionId (v : jsval) : M unit :=
  fun st =>
    (Ok tt,
     {| keyAuth := {| config := config (keyAuth st); sessionId := Some v |};
        sent := sent st; uuids_drawn := uuids_drawn st; replies := replies st |}).

(** [crypto.randomUUID()] *)
Definition crypto_randomUUID : M string :=
  fun st =>
    (Ok (randomUUID E (uuids_drawn st)),
     {| keyAuth := keyAuth st; sent := sent st;
        uuids_drawn := S (uuids_drawn st); replies := replies st |}).

(** The body of the [try] of [getSessionId]: [Some] of the identifier
    it returns, [None] when control falls out of the block. *)
Definition init_handshake : M (option jsval) :=
  cfg <- this_config ;;
  let params :=
    Js.object_literal
      [("type", "init"); ("ver", version cfg);
       ("name", name cfg); ("ownerid", ownerid cfg)] in
  response <- fetch (post (url cfg) params) ;;
  if ok response then
    data <- json response ;;
    success <- lift (Js.get data "success") ;;
    if Js.truthy success then
      sessionid <- lift (Js.get data "sessionid") ;;
      if Js.truthy sessionid then
        set_sessionId sessionid ;;;
        ret (Some sessionid)
      else ret None
    else ret None
  else ret None.

Definition getSessionId : M jsval :=
  cached <- this_sessionId ;;
  match cached with
  | Some s => ret s
  | None =>
      returned <- try_catch init_handshake (fun error => ret None) ;;
      match returned with
      | Some s => ret s
      | None =>
          (* Fallback: generate a session ID *)
          sessionId <- crypto_randomUUID ;;
          set_sessionId (JStr sessionId) ;;;
          ret (JStr sessionId)
      end
  end.

Definition makeRequest (type : string) (params : list (string * string)) : M jsval :=
  sessionId <- getSessionId ;;
  cfg <- this_config ;;
  sessionid <- lift (Js.ToString sessionId) ;;
  let requestParams :=
    Js.object_literal
      ([("type", type); ("sessionid", sessionid);
        ("name", name cfg); ("ownerid", ownerid cfg)] ++ params) in
  try_catch
    (response <- fetch (post (url cfg) requestParams) ;;
     if negb (ok response) then
       throw (Error ("HTTP " ++ JsString.of_Z (status response) ++ ": "
                     ++ statusText response))
     else
       data <- json response ;;
       ret data)
    (fun error =>
       throw (Error ("KeyAuth API request failed: " ++ err_message error))).

(* User Management *)
Definition getUserInfo (username : string) : M jsval :=
  makeRequest "user" [("username", username)].

Definition banUser (username : string) : M jsval :=
  makeRequest "ban" [("username", username)].

Definition unbanUser (username : string) : M jsval :=
  makeRequest "unban" [("username", username)].

Definition deleteUser (username : string) : M jsval :=
  makeRequest "deleteuser" [("username", username)].

Definition resetHWID (username : string) : M jsval :=
  makeRequest "resetuser" [("username", username)].

(* License Management *)
Definition createLicense (license : string) (days : Z) : M jsval :=
  makeRequest "add" [("key", license); ("days", JsString.of_Z days)].

Definition deleteLicense (license : string) : M jsval :=
  makeRequest "delete" [("key", license)].

Definition useLicense (license username : string) : M jsval :=
  makeRequest "use" [("key", license); ("username", username)].

(* Subscription Management *)
Definition extendSubscription (username subscription : string) (days : Z) : M jsval :=
  makeRequest "extend"
    [("username", username); ("subscription", subscription);
     ("days", JsString.of_Z days)].

(* Statistics *)
Definition getStats : M jsval := makeRequest "stats" [].

(* Webhook Management *)
Definition setWebhook (webhook : string) : M jsval :=
  makeRequest "webhook" [("webhook", webhook)].

(* Channel Management *)
Definition addChannel (channel : string) : M jsval :=
  makeRequest "addchannel" [("channel", channel)].

Definition deleteChannel (channel : string) : M jsval :=
  makeRequest "deletechannel" [("channel", channel)].

End Client.

(** ** [index.ts] *)

(** [(process.env.ADMIN_IDS || '').split(',').map(id => id.trim()).filter(Boolean)] *)
Definition adminIds (E : Env) : list string :=
  filter JsString.nonempty
    (map JsString.trim (JsString.split_comma (env_or E "ADMIN_IDS" ""))).

Definition isAdmin (E : Env) (userId : string) : bool :=
  existsb (String.eqb userId) (adminIds E).

(** An inbound interaction.  The platform checks an invocation against
    the registered command schema before it is delivered, so the required
    options are there: [getString n] is
    [interaction.options.getString(n, true)], and [getInteger] likewise. *)
Record Interaction := {
  isChatInputCommand : bool;
  user_id : string;
  commandName : string;
  getString : string -> string;
  getInteger : string -> Z
}.

Definition blurple : Z := 5793266.  (* 0x5865F2 *)
Definition red : Z := 16711680.     (* 0xFF0000 *)
Definition green : Z := 65280.      (* 0x00FF00 *)

(** [createEmbed(title, description, color)] *)
Definition createEmbed (title : string) (description : jsval) (color : Z) : Embed :=
  {| title := title; description := description; color := color; fields := [] |}.

(** [embed.addFields(...)] *)
Definition addFields (e : Embed) (fs : list EmbedField) : Embed :=
  {| title := title e; description := description e; color := color e;
     fields := fields e ++ fs |}.

(** [await interaction.reply(r)] *)
Definition reply (r : Reply) : M unit :=
  fun st =>
    (Ok tt,
     {| keyAuth := keyAuth st; sent := sent st; uuids_drawn := uuids_drawn st;
        replies := replies st ++ [r] |}).

Definition LF : string := String (ascii_of_nat 10) "".

Fixpoint map_result {A B} (f : A -> Result B) (l : list A) : Result (list B) :=
  match l with
  | [] => Ok []
  | x :: l' => rbind (f x) (fun y => rbind (map_result f l') (fun ys => Ok (y :: ys)))
  end.

Section Dispatcher.

Variable E : Env.

(** [TimeClip] of an integral time value *)
Definition TimeClip (t : Z) : option Z :=
  if Z.abs t <=? 8640000000000000 then Some t else None.

(** The time value of [new Date(v)], [None] for an invalid date. *)
Definition new_Date (v : jsval) : Result (option Z) :=
  match v with
  | JUndefined => Ok None
  | JNull => Ok (TimeClip 0)
  | JBool b => Ok (TimeClip (if b then 1 else 0))
  | JNum z => Ok (TimeClip z)
  | JStr s => Ok (Date_parse E s)
  | JArr _ | JObj _ => rbind (Js.ToString v) (fun s => Ok (Date_parse E s))
  end.

(** [date.toLocaleDateString()] *)
Definition toLocaleDateString (time : option Z) : string :=
  match time with
  | None => "Invalid Date"
  | Some t => format_date E t
  end.

(** [v ? new Date(v).toLocaleDateString() : 'N/A'] *)
Definition date_or_NA (v : jsval) : Result jsval :=
  if Js.truthy v
  then rbind (new_Date v) (fun d => Ok (JStr (toLocaleDateString d)))
  else Ok (JStr "N/A").

(** The five fields of the user embed. *)
Definition user_fields (info : jsval) : Result (list EmbedField) :=
  rbind (Js.get info "username") (fun username =>
  rbind (Js.get info "ip") (fun ip =>
  rbind (Js.get info "hwid") (fun hwid =>
  rbind (Js.get info "createdate") (fun createdate =>
  rbind (date_or_NA createdate) (fun created =>
  rbind (Js.get info "lastlogin") (fun lastlogin =>
  rbind (date_or_NA lastlogin) (fun lastLogin =>
  Ok [ {| field_name := "Username"; field_value := Js.or username (JStr "N/A");
          field_inline := true |};
       {| field_name := "IP Address"; field_value := Js.or ip (JStr "N/A");
          field_inline := true |};
       {| field_name := "HWID"; field_value := Js.or hwid (JStr "N/A");
          field_inline := true |};
       {| field_name := "Created"; field_value := created; field_inline := true |};
       {| field_name := "Last Login"; field_value := lastLogin;
          field_inline := true |} ]))))))).

(** One line of the subscriptions field:
    [`**${sub.subscription}**\nKey: ${sub.key}\nExpiry: ${new Date(sub.expiry).toLocaleDateString()}`] *)
Definition subscription_line (sub : jsval) : Result string :=
  rbind (Js.get sub "subscription") (fun subscription =>
  rbind (Js.ToString subscription) (fun subscription =>
  rbind (Js.get sub "key") (fun key =>
  rbind (Js.ToString key) (fun key =>
  rbind (Js.get sub "expiry") (fun expiry =>
  rbind (new_Date expiry) (fun expiry =>
  Ok ("**" ++ subscription ++ "**" ++ LF ++ "Key: " ++ key ++ LF
      ++ "Expiry: " ++ toLocaleDateString expiry))))))).

(** The field the user embed gains when [info.subscriptions] is a
    non-empty array. *)
Definition subscriptions_field (info : jsval) : Result (list EmbedField) :=
  rbind (Js.get info "subscriptions") (fun subscriptions =>
  match subscriptions with
  | JArr (sub :: rest) =>
      rbind (map_result subscription_line (sub :: rest)) (fun lines =>
      let subs := String.concat (LF ++ LF) lines in
      Ok [ {| field_name := "Subscriptions";
              field_value := Js.or (JStr subs) (JStr "None");
              field_inline := false |} ])
  | _ => Ok []
  end).

Definition username_cannot_be_empty : Reply :=
  {| embeds := [createEmbed "❌ Error" (JStr "Username cannot be empty") red];
     ephemeral := true |}.

Definition case_user (interaction : Interaction) : M unit :=
  let username := JsString.trim (getString interaction "username") in
  if negb (JsString.nonempty username) then
    reply username_cannot_be_empty
  else
    result <- getUserInfo E username ;;
    success <- lift (Js.get result "success") ;;
    info <- (if Js.truthy success then lift (Js.get result "info") else ret success) ;;
    if Js.truthy info then
      main <- lift (user_fields info) ;;
      let embed := addFields (createEmbed ("👤 User: " ++ username) (JStr "") blurple) main in
      subs <- lift (subscriptions_field info) ;;
      reply {| embeds := [addFields embed subs]; ephemeral := false |}
    else
      message <- lift (Js.get result "message") ;;
      reply {| embeds := [createEmbed "❌ Error" (Js.or message (JStr "User not found")) red];
               ephemeral := false |}.

(** The reply every mutation command builds from its result:
    [createEmbed(result.success ? title : '❌ Error',
                 result.message || (result.success ? done : failed),
                 result.success ? 0x00FF00 : 0xFF0000)] *)
Definition result_reply (result : jsval) (title done failed : string) : M unit :=
  success <- lift (Js.get result "success") ;;
  message <- lift (Js.get result "message") ;;
  reply {| embeds :=
             [createEmbed
                (if Js.truthy success then title else "❌ Error")
                (Js.or message (JStr (if Js.truthy success then done else failed)))
                (if Js.truthy success then green else red)];
           ephemeral := false |}.

Definition case_ban (interaction : Interaction) : M unit :=
  let username := JsString.trim (getString interaction "username") in
  if negb (JsString.nonempty username) then
    reply username_cannot_be_empty
  else
    result <- banUser E username ;;
    result_reply result "✅ User Banned"
      ("User " ++ username ++ " has been banned.") "Failed to ban user".

Definition case_unban (interaction : Interaction) : M unit :=
  let username := JsString.trim (getString interaction "username") in
  if negb (JsString.nonempty username) then
    reply username_cannot_be_empty
  else
    result <- unbanUser E username ;;
    result_reply result "✅ User Unbanned"
      ("User " ++ username ++ " has been unbanned.") "Failed to unban user".

Definition case_deleteuser (interaction : Interaction) : M unit :=
  let username := JsString.trim (getString interaction "username") in
  if negb (JsString.nonempty username) then
    reply username_cannot_be_empty
  else
    result <- deleteUser E username ;;
    result_reply result "✅ User Deleted"
      ("User " ++ username ++ " has been deleted.") "Failed to delete user".

Definition case_resethwid (interaction : Interaction) : M unit :=
  let username := JsString.trim (getString interaction "username") in
  if negb (JsString.nonempty username) then
    reply username_cannot_be_empty
  else
    result <- resetHWID E username ;;
    result_reply result "✅ HWID Reset"
      ("HWID for " ++ username ++ " has been reset.") "Failed to reset HWID".

Definition case_createlicense (interaction : Interaction) : M unit :=
  let license := getString interaction "license" in
  let days := getInteger interaction "days" in
  result <- createLicense E license days ;;
  result_reply result "✅ License Created"
    ("License " ++ license ++ " created for " ++ JsString.of_Z days ++ " days.")
    "Failed to create license".

Definition case_deletelicense (interaction : Interaction) : M unit :=
  let license := getString interaction "license" in
  result <- deleteLicense E license ;;
  result_reply result "✅ License Deleted"
    ("License " ++ license ++ " has been deleted.") "Failed to delete license".

Definition case_uselicense (interaction : Interaction) : M unit :=
  let license := JsString.trim (getString interaction "license") in
  let username := JsString.trim (getString interaction "username") in
  if negb (JsString.nonempty license) || negb (JsString.nonempty username) then
    reply {| embeds := [createEmbed "❌ Error"
                          (JStr "License and username cannot be empty") red];
             ephemeral := true |}
  else
    result <- useLicense E license username ;;
    result_reply result "✅ License Applied"
      ("License " ++ license ++ " applied to " ++ username ++ ".")
      "Failed to apply license".

Definition case_extendsub (interaction : Interaction) : M unit :=
  let username := JsString.trim (getString interaction "username") in
  let subscription := JsString.trim (getString interaction "subscription") in
  let days := getInteger interaction "days" in
  if negb (JsString.nonempty username) || negb (JsString.nonempty subscription) then
    reply {| embeds := [createEmbed "❌ Error"
                          (JStr "Username and subscription cannot be empty") red];
             ephemeral := true |}
  else
    result <- extendSubscription E username subscription days ;;
    result_reply result "✅ Subscription Extended"
      ("Subscription " ++ subscription ++ " for " ++ username ++ " extended by "
       ++ JsString.of_Z days ++ " days.")
      "Failed to extend subscription".

(** [stats.k?.toString() || '0'] *)
Definition stat_value (stats : jsval) (k : string) : Result jsval :=
  rbind (Js.get stats k) (fun v =>
  rbind (Js.toString_opt ("stats." ++ k ++ "?.toString") v) (fun s =>
  Ok (Js.or s (JStr "0")))).

Definition stats_fields (stats : jsval) : Result (list EmbedField) :=
  rbind (stat_value stats "users") (fun users =>
  rbind (stat_value stats "licenses") (fun licenses =>
  rbind (stat_value stats "online") (fun online =>
  Ok [ {| field_name := "Total Users"; field_value := users; field_inline := true |};
       {| field_name := "Total Licenses"; field_value := licenses;
          field_inline := true |};
       {| field_name := "Online Users"; field_value := online;
          field_inline := true |} ]))).

Definition case_stats (interaction : Interaction) : M unit :=
  result <- getStats E ;;
  success <- lift (Js.get result "success") ;;
  info <- (if Js.truthy success then lift (Js.get result "info") else ret success) ;;
  if Js.truthy info then
    fs <- lift (stats_fields info) ;;
    reply {| embeds := [addFields (createEmbed "📊 Application Statistics" (JStr "") blurple) fs];
             ephemeral := false |}
  else
    message <- lift (Js.get result "message") ;;
    reply {| embeds := [createEmbed "❌ Error"
                          (Js.or message (JStr "Failed to fetch statistics")) red];
             ephemeral := false |}.

Definition case_default : M unit :=
  reply {| embeds := [createEmbed "❌ Unknown Command"
                        (JStr "This command is not implemented.") red];
           ephemeral := true |}.

(** [switch (commandName) { ... }] *)
Definition command_switch (interaction : Interaction) : M unit :=
  let commandName := commandName interaction in
  if String.eqb commandName "user" then case_user interaction
  else if String.eqb commandName "ban" then case_ban interaction
  else if String.eqb commandName "unban" then case_unban interaction
  else if String.eqb commandName "deleteuser" then case_deleteuser interaction
  else if String.eqb commandName "resethwid" then case_resethwid interaction
  else if String.eqb commandName "createlicense" then case_createlicense interaction
  else if String.eqb commandName "deletelicense" then case_deletelicense interaction
  else if String.eqb commandName "uselicense" then case_uselicense interaction
  else if String.eqb commandName "extendsub" then case_extendsub interaction
  else if String.eqb commandName "stats" then case_stats interaction
  else case_default.

Definition access_denied : Reply :=
  {| embeds := [createEmbed "❌ Access Denied"
                  (JStr "You do not have permission to use this bot.") red];
     ephemeral := true |}.

Definition error_reply (error : exn) : Reply :=
  {| embeds := [createEmbed "❌ Error"
                  (JStr ("An error occurred: " ++ err_message error)) red];
     ephemeral := true |}.

(** [client.on('interactionCreate', async (interaction) => { ... })] *)
Definition onInteractionCreate (interaction : Interaction) : M unit :=
  if negb (isChatInputCommand interaction) then ret tt
  else if negb (isAdmin E (user_id interaction)) then reply access_denied
  else
    try_catch (command_switch interaction)
              (fun error => reply (error_reply error)).

End Dispatcher.

(** ** [index.ts]: the command definitions and the start of the bot *)

Inductive OptionType := StringOption | IntegerOption.

(** An option of a slash command, as [addStringOption] and
    [addIntegerOption] build it. *)
Record CommandOption := {
  option_type : OptionType;
  option_name : string;
  option_description : string;
  option_required : bool;
  option_min_value : option Z
}.

(** A [SlashCommandBuilder]. *)
Record SlashCommand := {
  command_name : string;
  command_description : string;
  command_options : list CommandOption
}.

Definition string_option (n d : string) : CommandOption :=
  {| option_type := StringOption; option_name := n; option_description := d;
     option_required := true; option_min_value := None |}.

Definition days_option (d : string) : CommandOption :=
  {| option_type := IntegerOption; option_name := "days"; option_description := d;
     option_required := true; option_min_value := Some 1 |}.

(** [const commands = [...]] *)
Definition commands : list SlashCommand :=
  [ (* User Management *)
    {| command_name := "user"; command_description := "Get user information";
       command_options := [string_option "username" "The username to look up"] |};
    {| command_name := "ban"; command_description := "Ban a user";
       command_options := [string_option "username" "The username to ban"] |};
    {| command_name := "unban"; command_description := "Unban a user";
       command_options := [string_option "username" "The username to unban"] |};
    {| command_name := "deleteuser"; command_description := "Delete a user account";
       command_options := [string_option "username" "The username to delete"] |};
    {| command_name := "resethwid"; command_description := "Reset a user's HWID";
       command_options :=
         [string_option "username" "The username to reset HWID for"] |};
    (* License Management *)
    {| command_name := "createlicense";
       command_description := "Create a new license key";
       command_options :=
         [string_option "license" "The license key to create";
          days_option "Number of days for the license"] |};
    {| command_name := "deletelicense"; command_description := "Delete a license key";
       command_options := [string_option "license" "The license key to delete"] |};
    {| command_name := "uselicense";
       command_description := "Use a license key for a user";
       command_options :=
         [string_option "license" "The license key to use";
          string_option "username" "The username to apply the license to"] |};
    (* Subscription Management *)
    {| command_name := "extendsub";
       command_description := "Extend a user's subscription";
       command_options :=
         [string_option "username" "The username";
          string_option "subscription" "The subscription name";
          days_option "Number of days to extend"] |};
    (* Statistics *)
    {| command_name := "stats"; command_description := "Get application statistics";
       command_options := [] |} ].

(** Where the commands are registered: [Routes.applicationGuildCommands]
    and [Routes.applicationCommands]. *)
Inductive Route :=
| ApplicationGuildCommands (clientId guildId : string)
| ApplicationCommands (clientId : string).

(** The chat platform at start-up: what [rest.put] and [client.login]
    do, [None] when the promise resolves and [Some] of the error when it
    rejects. *)
Record Platform := {
  rest_put : string -> Route -> list SlashCommand -> option exn;
  client_login : string -> option exn
}.

(** A line of the console: [console.log(text)], or
    [console.error(label, error)]. *)
Inductive ConsoleLine :=
| Log (text : string)
| ErrorLog (label : string) (error : exn).

(** What the start of the bot has done: the registrations put (under the
    token given to [setToken]), the tokens logged in with, and the lines
    written to the console. *)
Record Boot := {
  puts : list (string * Route * list SlashCommand);
  logins : list string;
  console : list ConsoleLine
}.

(** How the start of the process ends: the bot runs, the process exits
    with a code, or the module fails to load on an uncaught exception. *)
Inductive Outcome :=
| Running
| Exited (code : Z)
| Uncaught (e : exn).

Definition say (line : ConsoleLine) (b : Boot) : Boot :=
  {| puts := puts b; logins := logins b; console := console b ++ [line] |}.

Section Start.

Variable E : Env.
Variable P : Platform.

(** [await rest.put(route, { body: commands })] *)
Definition put_commands (route : Route) (b : Boot) : Result unit * Boot :=
  let token := getenv E "DISCORD_TOKEN" in
  let b' := {| puts := puts b ++ [(token, route, commands)];
               logins := logins b; console := console b |} in
  match rest_put P token route commands with
  | None => (Ok tt, b')
  | Some e => (Throw e, b')
  end.

(** [registerCommands()] *)
Definition registerCommands (b : Boot) : Boot :=
  let n := JsString.of_Z (Z.of_nat (List.length commands)) in
  let b := say (Log "Started refreshing application (/) commands.") b in
  let '(r, b) :=
    if JsString.nonempty (getenv E "GUILD_ID") then
      (* Register commands for a specific guild (faster for testing) *)
      match put_commands (ApplicationGuildCommands (getenv E "DISCORD_CLIENT_ID")
                            (getenv E "GUILD_ID")) b with
      | (Ok _, b) =>
          (Ok tt, say (Log ("Successfully registered " ++ n ++ " guild commands.")) b)
      | (Throw e, b) => (Throw e, b)
      end
    else
      (* Register commands globally (takes up to 1 hour to propagate) *)
      match put_commands (ApplicationCommands (getenv E "DISCORD_CLIENT_ID")) b with
      | (Ok _, b) =>
          (Ok tt, say (Log ("Successfully registered " ++ n ++ " global commands.")) b)
      | (Throw e, b) => (Throw e, b)
      end in
  match r with
  | Ok _ => b
  | Throw error => say (ErrorLog "Error registering commands:" error) b
  end.

(** [await client.login(token)] *)
Definition login (token : string) (b : Boot) : Result unit * Boot :=
  let b' := {| puts := puts b; logins := logins b ++ [token]; console := console b |} in
  match client_login P token with
  | None => (Ok tt, b')
  | Some e => (Throw e, b')
  end.

(** The body of the [try] of [start()]. *)
Definition start_body (b : Boot) : Result unit * Boot :=
  if negb (JsString.nonempty (getenv E "DISCORD_TOKEN")) then
    (Throw (Error "DISCORD_TOKEN environment variable is required"), b)
  else if negb (JsString.nonempty (getenv E "DISCORD_CLIENT_ID")) then
    (Throw (Error "DISCORD_CLIENT_ID environment variable is required"), b)
  else login (getenv E "DISCORD_TOKEN") (registerCommands b).

(** [start()]: a failure is logged and ends the process with
    [process.exit(1)]. *)
Definition start (b : Boot) : Outcome * Boot :=
  match start_body b with
  | (Ok _, b') => (Running, b')
  | (Throw error, b') => (Exited 1, say (ErrorLog "Failed to start bot:" error) b')
  end.

(** The module [index.ts] from its first line: the client is
    constructed, then [start()] is called. *)
Definition index_main : Outcome * Boot :=
  let b := {| puts := []; logins := []; console := [] |} in
  match KeyAuthClient_new E with
  | Throw e => (Uncaught e, b)
  | Ok _ => start b
  end.

End Start.


(** ** The catalog of remote operations *)

(** The thirteen public methods of [KeyAuthClient], with their arguments. *)
Inductive Operation :=
| GetUserInfo (username : string)
| BanUser (username : string)
| UnbanUser (username : string)
| DeleteUser (username : string)
| ResetHWID (username : string)
| CreateLicense (license : string) (days : Z)
| DeleteLicense (license : string)
| UseLicense (license username : string)
| ExtendSubscription (username subscription : string) (days : Z)
| GetStats
| SetWebhook (webhook : string)
| AddChannel (channel : string)
| DeleteChannel (channel : string).

(** Calling the method. *)
Definition perform (E : Env) (op : Operation) : M jsval :=
  match op with
  | GetUserInfo username => getUserInfo E username
  | BanUser username => banUser E username
  | UnbanUser username => unbanUser E username
  | DeleteUser username => deleteUser E username
  | ResetHWID username => resetHWID E username
  | CreateLicense license days => createLicense E license days
  | DeleteLicense license => deleteLicense E license
  | UseLicense license username => useLicense E license username
  | ExtendSubscription username subscription days =>
      extendSubscription E username subscription days
  | GetStats => getStats E
  | SetWebhook webhook => setWebhook E webhook
  | AddChannel channel => addChannel E channel
  | DeleteChannel channel => deleteChannel E channel
  end.

(** Operations awaited one after the other, an exception of one (which
    its caller catches) not stopping the next. *)
Fixpoint run (E : Env) (ops : list Operation) (st : State) : State :=
  match ops with
  | [] => st
  | op :: ops' => run E ops' (snd (perform E op st))
  end.

(** The process at start-up: [const keyAuth = new KeyAuthClient()], with
    nothing sent, drawn or replied yet. *)
Definition startup (E : Env) : Result State :=
  rbind (KeyAuthClient_new E) (fun client =>
  Ok {| keyAuth := client; sent := []; uuids_drawn := 0%nat; replies := [] |}).

(** ** Vocabulary of the statements *)

(** The request of the init handshake of a client configured by [cfg]. *)
Definition init_request (cfg : KeyAuthConfig) : Request :=
  post (url cfg)
    [("type", "init"); ("ver", version cfg);
     ("name", name cfg); ("ownerid", ownerid cfg)].

Definition is_init (r : Request) : bool :=
  match Js.assoc "type" (req_body r) with
  | Some t => String.eqb t "init"
  | None => false
  end.

Definition count_init (l : list Request) : nat := List.length (filter is_init l).

(** A configuration value is missing or empty. *)
Definition unset (E : Env) (k : string) : Prop :=
  process_env E k = None \/ process_env E k = Some "".

(** The state [st] with one more reply. *)
Definition with_reply (st : State) (r : Reply) : State :=
  {| keyAuth := keyAuth st; sent := sent st; uuids_drawn := uuids_drawn st;
     replies := replies st ++ [r] |}.


(** The state [st] after [r] was handed to [fetch]. *)
Definition sending (st : State) (r : Request) : State :=
  {| keyAuth := keyAuth st; sent := sent st ++ [r];
     uuids_drawn := uuids_drawn st; replies := replies st |}.

(** The state [st] once the session [s] is cached, the requests [new]
    sent and [u] identifiers drawn. *)
Definition with_session (st : State) (s : jsval) (new : list Request) (u : nat) : State :=
  {| keyAuth := {| config := config (keyAuth st); sessionId := Some s |};
     sent := sent st ++ new; uuids_drawn := u; replies := replies st |}.

(** The request [makeRequest type params] sends under the session [sid]. *)
Definition operation_request (cfg : KeyAuthConfig) (sid type : string)
  (params : list (string * string)) : Request :=
  post (url cfg)
    (Js.object_literal
       ([("type", type); ("sessionid", sid);
         ("name", name cfg); ("ownerid", ownerid cfg)] ++ params)).

(** What [makeRequest] makes of the upstream's answer to its request. *)
Definition completion (o : FetchOutcome) : Result jsval :=
  match o with
  | NetworkError m => Throw (Error ("KeyAuth API request failed: " ++ m))
  | Responds r =>
      if (200 <=? status r) && (status r <=? 299) then
        match body r with
        | Json data => Ok data
        | BadJson m => Throw (Error ("KeyAuth API request failed: " ++ m))
        end
      else Throw (Error ("KeyAuth API request failed: HTTP "
                         ++ JsString.of_Z (status r) ++ ": " ++ statusText r))
  end.

(** The handshake of an uninitialised client, by the upstream's answer:
    the identifier the upstream issued, when it issued one. *)
Definition issued (o : FetchOutcome) : option jsval :=
  match o with
  | NetworkError _ => None
  | Responds r =>
      if (200 <=? status r) && (status r <=? 299) then
        match body r with
        | BadJson _ => None
        | Json data =>
            match Js.get data "success" with
            | Ok success =>
                if Js.truthy success then
                  match Js.get data "sessionid" with
                  | Ok sid => if Js.truthy sid then Some sid else None
                  | Throw _ => None
                  end
                else None
            | Throw _ => None
            end
        end
      else None
  end.

(** A request carries the session [s]: its [sessionid] is the string
    form of [s]. *)
Definition carries (s : jsval) (r : Request) : Prop :=
  exists sid, Js.ToString s = Ok sid /\ Js.assoc "sessionid" (req_body r) = Some sid.

(** The ways the init handshake fails: the request is not answered; the
    status is not 2xx; the body does not parse; the body is not an object
    at all; its [success] is not true; it carries no session identifier. *)
Inductive InitFailure : FetchOutcome -> Prop :=
| init_network_error (m : string) :
    InitFailure (NetworkError m)
| init_not_ok (r : Response) :
    status r < 200 \/ 299 < status r -> InitFailure (Responds r)
| init_malformed (r : Response) (m : string) :
    body r = BadJson m -> InitFailure (Responds r)
| init_no_object (r : Response) (data : jsval) (e : exn) :
    body r = Json data -> Js.get data "success" = Throw e ->
    InitFailure (Responds r)
| init_unsuccessful (r : Response) (data success : jsval) :
    body r = Json data -> Js.get data "success" = Ok success ->
    Js.truthy success = false -> InitFailure (Responds r)
| init_no_sessionid (r : Response) (data sessionid : jsval) :
    body r = Json data -> Js.get data "sessionid" = Ok sessionid ->
    Js.truthy sessionid = false -> InitFailure (Responds r).







(** The client operation a command invokes once its arguments passed
    validation; [None] when validation rejects them, and for a command
    name that is not implemented. *)
Definition validated_call (i : Interaction) : option Operation :=
  let trimmed n := JsString.trim (getString i n) in
  let filled n := JsString.nonempty (trimmed n) in
  let c := commandName i in
  if String.eqb c "user" then
    if filled "username" then Some (GetUserInfo (trimmed "username")) else None
  else if String.eqb c "ban" then
    if filled "username" then Some (BanUser (trimmed "username")) else None
  else if String.eqb c "unban" then
    if filled "username" then Some (UnbanUser (trimmed "username")) else None
  else if String.eqb c "deleteuser" then
    if filled "username" then Some (DeleteUser (trimmed "username")) else None
  else if String.eqb c "resethwid" then
    if filled "username" then Some (ResetHWID (trimmed "username")) else None
  else if String.eqb c "createlicense" then
    Some (CreateLicense (getString i "license") (getInteger i "days"))
  else if String.eqb c "deletelicense" then
    Some (DeleteLicense (getString i "license"))
  else if String.eqb c "uselicense" then
    if filled "license" && filled "username"
    then Some (UseLicense (trimmed "license") (trimmed "username")) else None
  else if String.eqb c "extendsub" then
    if filled "username" && filled "subscription"
    then Some (ExtendSubscription (trimmed "username") (trimmed "subscription")
                 (getInteger i "days"))
    else None
  else if String.eqb c "stats" then Some GetStats
  else None.



(** The required string options of a command, as the command definitions
    register them. *)
Definition required_strings (command : string) : list string :=
  if String.eqb command "user" then ["username"]
  else if String.eqb command "ban" then ["username"]
  else if String.eqb command "unban" then ["username"]
  else if String.eqb command "deleteuser" then ["username"]
  else if String.eqb command "resethwid" then ["username"]
  else if String.eqb command "createlicense" then ["license"]
  else if String.eqb command "deletelicense" then ["license"]
  else if String.eqb command "uselicense" then ["license"; "username"]
  else if String.eqb command "extendsub" then ["username"; "subscription"]
  else [].

(** A validation-error notification: one red, ephemeral error embed. *)
Definition validation_error (r : Reply) : Prop :=
  exists text, r = {| embeds := [createEmbed "❌ Error" (JStr text) red];
                      ephemeral := true |}.







(** The names the [switch] of the handler knows. *)
Definition known_commands : list string :=
  ["user"; "ban"; "unban"; "deleteuser"; "resethwid"; "createlicense";
   "deletelicense"; "uselicense"; "extendsub"; "stats"].


(** The string holds no comma. *)
Definition comma_free (s : string) : Prop :=
  ~ In ","%char (list_ascii_of_string s).

(** The string neither begins nor ends with a character that
    [String.prototype.trim] removes. *)
Definition trimmed (s : string) : Prop :=
  JsString.strip_any JsString.whitespace s = None /\
  JsString.strip_any (map JsString.reverse JsString.whitespace) (JsString.reverse s)
    = None.

(** What a state holds of the client and of the network: the client
    object, the requests sent and the random identifiers drawn. *)
Definition client_side (st : State) : KeyAuthClient * list Request * nat :=
  (keyAuth st, sent st, uuids_drawn st).





(** A platform on which the registration is refused and the login
    accepted. *)
Definition demo_platform : Platform :=
  {| rest_put := fun _ _ _ => Some (Error "Missing Access");
     client_login := fun _ => None |}.

(** *** A host and an upstream for the examples *)

(** The civil date of a day count since 1970-01-01, as [(year, month, day)]. *)
Definition civil_from_days (days : Z) : Z * Z * Z :=
  let z := days + 719468 in
  let era := z / 146097 in
  let doe := z - era * 146097 in
  let yoe := (doe - doe / 1460 + doe / 36524 - doe / 146096) / 365 in
  let doy := doe - (365 * yoe + yoe / 4 - yoe / 100) in
  let mp := (5 * doy + 2) / 153 in
  let d := doy - (153 * mp + 2) / 5 + 1 in
  let m := if mp <? 10 then mp + 3 else mp - 9 in
  let y := yoe + era * 400 + (if m <=? 2 then 1 else 0) in
  (y, m, d).

(** [toLocaleDateString()] in the locale en-US and the time zone UTC. *)
Definition en_US_UTC (t : Z) : string :=
  let '(y, m, d) := civil_from_days (t / 86400000) in
  JsString.of_Z m ++ "/" ++ JsString.of_Z d ++ "/" ++ JsString.of_Z y.

(** An environment with two administrators and a configured client,
    whose upstream accepts the handshake with the session [sess-1] and
    answers any other request as [answer] says. *)
Definition demo_env (answer : Request -> FetchOutcome) : Env :=
  {| process_env := fun k =>
       if String.eqb k "ADMIN_IDS" then Some "1001, 1002"
       else if String.eqb k "KEYAUTH_NAME" then Some "demo"
       else if String.eqb k "KEYAUTH_OWNER_ID" then Some "owner42"
       else None;
     upstream := fun _ r =>
       if is_init r
       then Responds {| status := 200; statusText := "OK";
                        body := Json (JObj [("success", JBool true);
                                            ("sessionid", JStr "sess-1")]) |}
       else answer r;
     randomUUID := fun n => "00000000-0000-4000-8000-00000000000" ++ JsString.of_Z (Z.of_nat n);
     Date_parse := fun _ => None;
     format_date := en_US_UTC |}.

Definition answers (data : jsval) : Request -> FetchOutcome :=
  fun _ => Responds {| status := 200; statusText := "OK"; body := Json data |}.

Definition demo_config : KeyAuthConfig :=
  {| name := "demo"; ownerid := "owner42"; version := "2.0";
     url := "https://keyauth.win/api/1.3/" |}.

Definition demo_start : State :=
  {| keyAuth := {| config := demo_config; sessionId := None |};
     sent := []; uuids_drawn := 0%nat; replies := [] |}.

(** A slash command of the user [who], its options given by name. *)
Definition slash (who command : string) (strings : list (string * string))
  (integers : list (string * Z)) : Interaction :=
  {| isChatInputCommand := true; user_id := who; commandName := command;
     getString := fun n => match Js.assoc n strings with Some s => s | None => "" end;
     getInteger := fun n => match Js.assoc n integers with Some z => z | None => 0 end |}.

(** * Properties *)

Example trim_examples :
  JsString.trim "  alice 	" = "alice" /\ JsString.trim "   " = "" /\
  JsString.trim (JsString.bytes [194; 160; 97; 226; 128; 137]%nat) = "a".
Proof. repeat split; reflexivity. Qed.

Example split_comma_example :
  JsString.split_comma "1, 2,,3" = ["1"; " 2"; ""; "3"].
Proof. reflexivity. Qed.

Example of_Z_examples :
  JsString.of_Z 30 = "30" /\ JsString.of_Z 0 = "0" /\ JsString.of_Z (-5) = "-5".
Proof. repeat split; reflexivity. Qed.

Example en_US_UTC_example : en_US_UTC 1705314600000 = "1/15/2024".
Proof. reflexivity. Qed.

Example demo_adminIds : adminIds (demo_env (answers JNull)) = ["1001"; "1002"].
Proof. reflexivity. Qed.

Example demo_startup : startup (demo_env (answers JNull)) = Ok demo_start.
Proof. reflexivity. Qed.

Example demo_run :
  let E := demo_env (answers (JObj [("success", JBool true)])) in
  let st := run E [BanUser "bob"; GetStats; CreateLicense "ABC-123" 30] demo_start in
  count_init (sent st) = 1%nat /\
  map (fun r => Js.assoc "sessionid" (req_body r)) (sent st)
    = [None; Some "sess-1"; Some "sess-1"; Some "sess-1"] /\
  sessionId (keyAuth st) = Some (JStr "sess-1").
Proof. repeat split; reflexivity. Qed.

(** ** The client: session acquisition and the request primitive *)

Arguments JsString.of_Z : simpl never.
Arguments JsString.trim : simpl never.
Arguments Js.ToString : simpl never.
Arguments Js.get : simpl never.
Arguments Js.truthy : simpl never.

Ltac unfold_monad :=
  unfold json in *;
  unfold bind, ret, lift, throw, try_catch, this_config, this_sessionId,
    set_sessionId, crypto_randomUUID, fetch, reply in *.

Lemma state_eta (st : State) :
  {| keyAuth := keyAuth st; sent := sent st; uuids_drawn := uuids_drawn st;
     replies := replies st |} = st.
Proof. destruct st; reflexivity. Qed.

Lemma client_eta (c : KeyAuthClient) (s : jsval) :
  sessionId c = Some s -> {| config := config c; sessionId := Some s |} = c.
Proof. destruct c; simpl; intros ->; reflexivity. Qed.

Lemma getSessionId_cached (E : Env) (st : State) (s : jsval) :
  sessionId (keyAuth st) = Some s -> getSessionId E st = (Ok s, st).
Proof.
  intros H. unfold getSessionId. unfold_monad. rewrite H. reflexivity.
Qed.

Lemma getSessionId_fresh (E : Env) (st : State) :
  sessionId (keyAuth st) = None ->
  let cfg := config (keyAuth st) in
  getSessionId E st =
    match issued (upstream E (sent st) (init_request cfg)) with
    | Some s => (Ok s, with_session st s [init_request cfg] (uuids_drawn st))
    | None =>
        let uuid := JStr (randomUUID E (uuids_drawn st)) in
        (Ok uuid, with_session st uuid [init_request cfg] (S (uuids_drawn st)))
    end.
Proof.
  intros H cfg. unfold getSessionId, init_handshake, issued, ok. unfold_monad.
  rewrite H. cbn [Js.object_literal fold_left fst snd Js.set_member String.eqb Ascii.eqb Bool.eqb].
  fold (init_request (config (keyAuth st))). fold cfg.
  destruct (upstream E (sent st) (init_request cfg)) as [m | r]; [reflexivity |].
  destruct ((200 <=? status r) && (status r <=? 299)); [| reflexivity].
  destruct (body r) as [m | data]; [reflexivity |].
  destruct (Js.get data "success") as [success | e]; [| reflexivity].
  destruct (Js.truthy success); [| reflexivity].
  destruct (Js.get data "sessionid") as [sid | e]; [| reflexivity].
  destruct (Js.truthy sid); reflexivity.
Qed.

(** [getSessionId] never throws, and leaves a session cached. *)
Lemma getSessionId_total (E : Env) (st : State) :
  exists s new u,
    getSessionId E st = (Ok s, with_session st s new u) /\
    (forall s0, sessionId (keyAuth st) = Some s0 -> s = s0 /\ new = []) /\
    (sessionId (keyAuth st) = None -> new = [init_request (config (keyAuth st))]).
Proof.
  destruct (sessionId (keyAuth st)) as [s0 |] eqn:H.
  - exists s0, [], (uuids_drawn st). rewrite (getSessionId_cached E st s0 H).
    split; [| split].
    + f_equal. unfold with_session. rewrite app_nil_r.
      rewrite (client_eta _ _ H). symmetry. apply state_eta.
    + intros s1 [= <-]. auto.
    + discriminate.
  - rewrite (getSessionId_fresh E st H).
    destruct (issued _) as [s |].
    + exists s, [init_request (config (keyAuth st))], (uuids_drawn st).
      split; [reflexivity | split; [discriminate | reflexivity]].
    + eexists _, _, _. split; [reflexivity | split; [discriminate | reflexivity]].
Qed.

(** [makeRequest] in closed form, once the session is resolved. *)
Lemma makeRequest_resolved (E : Env) (type : string) (params : list (string * string))
  (st st1 : State) (s : jsval) (sid : string) :
  getSessionId E st = (Ok s, st1) ->
  Js.ToString s = Ok sid ->
  let req := operation_request (config (keyAuth st1)) sid type params in
  makeRequest E type params st =
    (completion (upstream E (sent st1) req), sending st1 req).
Proof.
  intros Hs Hsid req. unfold makeRequest, bind at 1. rewrite Hs.
  unfold completion, ok. unfold_monad. rewrite Hsid.
  fold (operation_request (config (keyAuth st1)) sid type params). fold req.
  fold (sending st1 req).
  destruct (upstream E (sent st1) req) as [m | r]; [reflexivity |].
  destruct ((200 <=? status r) && (status r <=? 299)); cbn [negb]; [| reflexivity].
  destruct (body r) as [m | data]; reflexivity.
Qed.

(** When the cached identifier has no string form, [makeRequest] throws
    before it sends anything. *)
Lemma makeRequest_unprintable (E : Env) (type : string) (params : list (string * string))
  (st st1 : State) (s : jsval) (e : exn) :
  getSessionId E st = (Ok s, st1) ->
  Js.ToString s = Throw e ->
  makeRequest E type params st = (Throw e, st1).
Proof.
  intros Hs Hsid. unfold makeRequest, bind at 1. rewrite Hs.
  unfold_monad. rewrite Hsid. reflexivity.
Qed.

Lemma perform_makeRequest (E : Env) (op : Operation) :
  exists type params,
    perform E op = makeRequest E type params /\ type <> "init" /\
    forall sid nm ow,
      Js.assoc "type"
        (Js.object_literal ([("type", type); ("sessionid", sid);
                             ("name", nm); ("ownerid", ow)] ++ params)) = Some type /\
      Js.assoc "sessionid"
        (Js.object_literal ([("type", type); ("sessionid", sid);
                             ("name", nm); ("ownerid", ow)] ++ params)) = Some sid.
Proof.
  destruct op; cbn [perform];
    unfold getUserInfo, banUser, unbanUser, deleteUser, resetHWID, createLicense,
      deleteLicense, useLicense, extendSubscription, getStats, setWebhook,
      addChannel, deleteChannel;
    eexists _, _; (split; [reflexivity | split; [discriminate | intros; split; reflexivity]]).
Qed.


Lemma count_init_app (a b : list Request) :
  count_init (a ++ b)%list = (count_init a + count_init b)%nat.
Proof. unfold count_init. now rewrite filter_app, length_app. Qed.

(** One operation: it leaves a session cached; it sends the handshake
    only when none was cached; with one cached it keeps it and sends at
    most its own request, under that session. *)
Lemma perform_session (E : Env) (op : Operation) (st : State) :
  exists (s : jsval) (new : list Request),
    sessionId (keyAuth (snd (perform E op st))) = Some s /\
    sent (snd (perform E op st)) = (sent st ++ new)%list /\
    (count_init new <= 1)%nat /\
    (forall s0, sessionId (keyAuth st) = Some s0 ->
       s = s0 /\ count_init new = 0%nat /\ Forall (carries s0) new).
Proof.
  destruct (perform_makeRequest E op) as (type & params & -> & Htype & Hbody).
  destruct (getSessionId_total E st) as (s & new & u & Hs & Hsome & Hnone).
  assert (Hnew : (count_init new <= 1)%nat /\
                 (forall s0, sessionId (keyAuth st) = Some s0 ->
                    s = s0 /\ new = [])).
  { destruct (sessionId (keyAuth st)) as [s0 |] eqn:Hc.
    - destruct (Hsome s0 eq_refl) as [-> ->]. split; [cbn; lia | intros ? [= <-]; auto].
    - rewrite (Hnone eq_refl). split; [cbn; lia | discriminate]. }
  destruct Hnew as [Hle Hact].
  destruct (Js.ToString s) as [sid | e] eqn:Hsid.
  - rewrite (makeRequest_resolved E type params st _ s sid Hs Hsid). cbn [snd].
    set (req := operation_request _ sid type params).
    assert (Hreq : is_init req = false).
    { unfold is_init, req, operation_request, post. cbn [req_body].
      destruct (Hbody sid (name (config (keyAuth (with_session st s new u))))
                  (ownerid (config (keyAuth (with_session st s new u))))) as [-> _].
      now apply String.eqb_neq. }
    exists s, (new ++ [req])%list. cbn [sending with_session keyAuth sent sessionId].
    split; [reflexivity |]. split; [now rewrite app_assoc |].
    assert (Hc : count_init [req] = 0%nat).
    { unfold count_init. cbn [filter]. now rewrite Hreq. }
    rewrite count_init_app, Hc. split; [lia |].
    intros s0 H0. destruct (Hact s0 H0) as [-> ->]. split; [reflexivity |].
    split; [reflexivity |]. cbn [app]. constructor; [| constructor].
    exists sid. split; [assumption |].
    unfold req, operation_request, post. cbn [req_body]. apply Hbody.
  - rewrite (makeRequest_unprintable E type params st _ s e Hs Hsid). cbn [snd].
    exists s, new. cbn [with_session keyAuth sent sessionId].
    split; [reflexivity |]. split; [reflexivity |]. split; [assumption |].
    intros s0 H0. destruct (Hact s0 H0) as [-> ->]. repeat split; constructor.
Qed.

(** Operations run with a session cached keep it, send no handshake and
    send every request under it. *)
Lemma run_session (E : Env) (ops : list Operation) :
  forall (st : State) (s : jsval),
    sessionId (keyAuth st) = Some s ->
    exists new : list Request,
      sessionId (keyAuth (run E ops st)) = Some s /\
      sent (run E ops st) = (sent st ++ new)%list /\
      count_init new = 0%nat /\ Forall (carries s) new.
Proof.
  induction ops as [| op ops IH]; intros st s Hs; cbn [run].
  - exists []. rewrite app_nil_r. repeat split; auto.
  - destruct (perform_session E op st) as (s1 & new1 & H1 & Hsent1 & _ & Hact).
    destruct (Hact s Hs) as (-> & Hc1 & Hcar1).
    destruct (IH _ s H1) as (new2 & H2 & Hsent2 & Hc2 & Hcar2).
    exists (new1 ++ new2)%list. split; [assumption |].
    split; [now rewrite Hsent2, Hsent1, app_assoc |].
    split; [rewrite count_init_app; lia | now apply Forall_app].
Qed.

(** C3. The session is acquired by the first remote operation and never
    lost: after the first operation [op] a session [s] is cached; after
    any further operations [ops], run one after the other, it is still
    [s]; those operations send no init request, every request they send
    carries [s] as its [sessionid], and over the whole run at most one
    init request is sent. *)
Theorem session_acquired_once (E : Env) (op : Operation) (ops : list Operation)
  (st : State) :
  let st1 := snd (perform E op st) in
  let st2 := run E ops st1 in
  exists (s : jsval) (new1 new2 : list Request),
    sessionId (keyAuth st1) = Some s /\
    sessionId (keyAuth st2) = Some s /\
    sent st1 = (sent st ++ new1)%list /\
    sent st2 = (sent st1 ++ new2)%list /\
    (count_init (new1 ++ new2)%list <= 1)%nat /\
    count_init new2 = 0%nat /\
    Forall (carries s) new2.
Proof.
  intros st1 st2.
  destruct (perform_session E op st) as (s & new1 & H1 & Hsent1 & Hle & _).
  destruct (run_session E ops st1 s H1) as (new2 & H2 & Hsent2 & Hc2 & Hcar2).
  exists s, new1, new2. repeat split; try assumption.
  rewrite count_init_app. lia.
Qed.

Lemma InitFailure_issued (o : FetchOutcome) : InitFailure o -> issued o = None.
Proof.
  intros [m | r H | r m H | r data e H He | r data success H Hs Ht
          | r data sessionid H Hs Ht]; cbn [issued]; try reflexivity.
  - replace ((200 <=? status r) && (status r <=? 299)) with false; [reflexivity |].
    symmetry. apply andb_false_iff. rewrite Z.leb_gt, Z.leb_gt. lia.
  - rewrite H. now destruct (_ && _).
  - rewrite H, He. now destruct (_ && _).
  - rewrite H, Hs, Ht. now destruct (_ && _).
  - rewrite H, Hs, Ht. destruct (_ && _); [| reflexivity].
    destruct (Js.get data "success") as [success |]; [| reflexivity].
    now destruct (Js.truthy success).
Qed.

(** C4. Whatever way the init handshake fails, session acquisition does
    not raise: it returns a locally generated identifier and caches it as
    it would a server-issued one; the operation that asked for the session
    then sends its own request under that identifier and completes by the
    answer to that request. *)
Theorem init_failure_falls_back (E : Env) (type : string)
  (params : list (string * string)) (st : State) :
  let cfg := config (keyAuth st) in
  let uuid := randomUUID E (uuids_drawn st) in
  let st1 := with_session st (JStr uuid) [init_request cfg] (S (uuids_drawn st)) in
  let req := operation_request cfg uuid type params in
  sessionId (keyAuth st) = None ->
  InitFailure (upstream E (sent st) (init_request cfg)) ->
  getSessionId E st = (Ok (JStr uuid), st1) /\
  getSessionId E st1 = (Ok (JStr uuid), st1) /\
  makeRequest E type params st =
    (completion (upstream E (sent st1) req), sending st1 req).
Proof.
  intros cfg uuid st1 req Hnone Hfail.
  assert (Hs : getSessionId E st = (Ok (JStr uuid), st1)).
  { rewrite (getSessionId_fresh E st Hnone). fold cfg.
    now rewrite (InitFailure_issued _ Hfail). }
  split; [exact Hs |]. split; [now apply getSessionId_cached |].
  exact (makeRequest_resolved E type params st st1 (JStr uuid) uuid Hs eq_refl).
Qed.

(** For C4: the handshake is refused with [success: false]; the ban that
    follows is sent under the first random identifier and returns the
    upstream's answer. *)
Lemma init_failure_falls_back_witness :
  let E := {| process_env := fun _ => None;
              upstream := fun _ r =>
                Responds {| status := 200; statusText := "OK";
                            body := Json (JObj [("success", JBool (negb (is_init r)))]) |};
              randomUUID := fun _ => "123e4567-e89b-42d3-a456-426614174000";
              Date_parse := fun _ => None; format_date := en_US_UTC |} in
  exists st2,
    makeRequest E "ban" [("username", "bob")] demo_start
      = (Ok (JObj [("success", JBool true)]), st2) /\
    map req_body (sent st2) =
      [ [("type", "init"); ("ver", "2.0"); ("name", "demo"); ("ownerid", "owner42")];
        [("type", "ban"); ("sessionid", "123e4567-e89b-42d3-a456-426614174000");
         ("name", "demo"); ("ownerid", "owner42"); ("username", "bob")] ] /\
    sessionId (keyAuth st2) = Some (JStr "123e4567-e89b-42d3-a456-426614174000").
Proof.
  intros E.
  destruct (init_failure_falls_back E "ban" [("username", "bob")] demo_start)
    as (_ & _ & H).
  - reflexivity.
  - apply (init_unsuccessful _ (JObj [("success", JBool false)]) (JBool false));
      reflexivity.
  - eexists. split; [exact H | split; reflexivity].
Defined.



Ltac unfold_cases :=
  unfold case_user, case_ban, case_unban, case_deleteuser, case_resethwid,
    case_createlicense, case_deletelicense, case_uselicense, case_extendsub,
    case_stats, case_default.

(** Case analysis on the command name [c]: [tac] settles each name the
    goal compares [c] with, [tac_other] the names it compares it with not. *)
Ltac by_command c tac tac_other :=
  repeat match goal with
  | |- context [String.eqb c ?lit] =>
      destruct (String.eqb_spec c lit) as [-> | ?];
      [ cbn [String.eqb Ascii.eqb Bool.eqb]; tac | ]
  end; tac_other.

Ltac by_validation :=
  cbv zeta;
  repeat match goal with
  | |- context [JsString.nonempty ?x] => destruct (JsString.nonempty x) eqn:?
  end; cbn [negb orb andb].








(** C9. Constructing the client throws when the application name or the
    owner id is missing or empty, and the process then never has a client
    to send a request with; when both are set the constructor succeeds
    with no session and nothing sent, the name and owner id as
    configured, and the version and the URL as configured or, when
    missing or empty, with the defaults [2.0] and
    [https://keyauth.win/api/1.3/]. *)
Theorem KeyAuthClient_new_validates (E : Env) :
  (unset E "KEYAUTH_NAME" \/ unset E "KEYAUTH_OWNER_ID" ->
   exists message, KeyAuthClient_new E = Throw (Error message) /\
                   startup E = Throw (Error message)) /\
  (forall nm ow : string,
     process_env E "KEYAUTH_NAME" = Some nm -> nm <> "" ->
     process_env E "KEYAUTH_OWNER_ID" = Some ow -> ow <> "" ->
     exists cfg : KeyAuthConfig,
       KeyAuthClient_new E = Ok {| config := cfg; sessionId := None |} /\
       startup E = Ok {| keyAuth := {| config := cfg; sessionId := None |};
                         sent := []; uuids_drawn := 0%nat; replies := [] |} /\
       name cfg = nm /\ ownerid cfg = ow /\
       (unset E "KEYAUTH_VERSION" -> version cfg = "2.0") /\
       (unset E "KEYAUTH_URL" -> url cfg = "https://keyauth.win/api/1.3/") /\
       (forall v, process_env E "KEYAUTH_VERSION" = Some v -> v <> "" -> version cfg = v) /\
       (forall v, process_env E "KEYAUTH_URL" = Some v -> v <> "" -> url cfg = v)).
Proof.
  assert (Hunset : forall k d, unset E k -> env_or E k d = d).
  { intros k d [H | H]; unfold env_or, getenv; now rewrite H. }
  assert (Hset : forall k d v, process_env E k = Some v -> v <> "" -> env_or E k d = v).
  { intros k d v H Hv. unfold env_or, getenv. rewrite H.
    destruct v; [contradiction | reflexivity]. }
  split.
  - intros H. eexists. unfold startup, KeyAuthClient_new. cbn [name ownerid].
    destruct H as [H | H]; rewrite (Hunset _ _ H); cbn [JsString.nonempty negb orb].
    + split; reflexivity.
    + rewrite orb_true_r. split; reflexivity.
  - intros nm ow Hn Hnm Ho How. eexists.
    unfold startup, KeyAuthClient_new. cbn [name ownerid].
    rewrite (Hset _ _ _ Hn Hnm), (Hset _ _ _ Ho How).
    destruct nm; [contradiction |]. destruct ow; [contradiction |].
    cbn [JsString.nonempty negb orb rbind].
    split; [reflexivity |]. split; [reflexivity |]. cbn [name ownerid version url].
    repeat split; auto.
Qed.

(** For C9: with the name and the owner id set and nothing else, the
    client is built with the default version and URL; with the owner id
    missing, construction throws. *)
Lemma KeyAuthClient_new_validates_witness :
  (exists cfg, KeyAuthClient_new (demo_env (answers JNull))
               = Ok {| config := cfg; sessionId := None |} /\
               version cfg = "2.0" /\ url cfg = "https://keyauth.win/api/1.3/") /\
  (exists message,
     KeyAuthClient_new {| process_env := fun k => if String.eqb k "KEYAUTH_NAME"
                                                  then Some "demo" else None;
                          upstream := fun _ _ => NetworkError "unreachable";
                          randomUUID := fun _ => "";
                          Date_parse := fun _ => None;
                          format_date := en_US_UTC |} = Throw (Error message)).
Proof.
  split.
  - destruct (KeyAuthClient_new_validates (demo_env (answers JNull))) as [_ H].
    destruct (H "demo" "owner42" eq_refl ltac:(discriminate) eq_refl ltac:(discriminate))
      as (cfg & Hnew & _ & _ & _ & Hv & Hu & _).
    exists cfg. split; [exact Hnew |].
    split; [apply Hv | apply Hu]; left; reflexivity.
  - match goal with |- context [KeyAuthClient_new ?E] =>
      destruct (KeyAuthClient_new_validates E) as [H _] end.
    destruct H as (message & Hnew & _); [right; left; reflexivity |].
    exists message. exact Hnew.
Defined.

(** C1. Whatever command a caller outside the admin allow-list invokes,
    and whatever its arguments, the handler makes the access-denied reply
    and nothing else: no request is sent and the state of the client is
    untouched. *)
Theorem non_admin_denied (E : Env) (i : Interaction) (st : State) :
  isChatInputCommand i = true ->
  ~ In (user_id i) (adminIds E) ->
  let st' := snd (onInteractionCreate E i st) in
  fst (onInteractionCreate E i st) = Ok tt /\
  replies st' = (replies st ++ [access_denied])%list /\
  sent st' = sent st /\
  keyAuth st' = keyAuth st /\
  uuids_drawn st' = uuids_drawn st.
Proof.
  intros Hchat Hout.
  assert (Hadmin : isAdmin E (user_id i) = false).
  { unfold isAdmin. destruct (existsb _ _) eqn:Hex; [| reflexivity].
    apply existsb_exists in Hex. destruct Hex as (x & Hin & Heq).
    apply String.eqb_eq in Heq. subst x. contradiction. }
  unfold onInteractionCreate. rewrite Hchat, Hadmin. cbn. repeat split.
Qed.

(** For C1: a caller who is not an administrator asks for a license. *)
Lemma non_admin_denied_witness :
  let E := demo_env (answers (JObj [("success", JBool true)])) in
  let i := slash "4242" "createlicense" [("license", "ABC-123")] [("days", 30)] in
  replies (snd (onInteractionCreate E i demo_start)) = [access_denied] /\
  sent (snd (onInteractionCreate E i demo_start)) = [].
Proof.
  intros E i.
  destruct (non_admin_denied E i demo_start) as (_ & Hr & Hs & _).
  - reflexivity.
  - cbn. intros [H | [H | []]]; discriminate H.
  - split; [exact Hr | exact Hs].
Defined.

(** ** The dispatcher: validation and result translation *)

Lemma append_assoc (a b c : string) : ((a ++ b) ++ c = a ++ b ++ c)%string.
Proof. induction a as [| x a IH]; cbn; [reflexivity | now rewrite IH]. Qed.





(** The handler of an administrator's command is its [switch], with the
    exceptions caught. *)
Lemma admin_handler (E : Env) (i : Interaction) (st : State) :
  isChatInputCommand i = true ->
  isAdmin E (user_id i) = true ->
  onInteractionCreate E i st =
    match command_switch E i st with
    | (Ok a, st') => (Ok a, st')
    | (Throw e, st') => (Ok tt, with_reply st' (error_reply e))
    end.
Proof.
  intros Hchat Hadmin. unfold onInteractionCreate. rewrite Hchat, Hadmin.
  cbn [negb]. unfold try_catch. destruct (command_switch E i st) as [[a | e] st'];
    reflexivity.
Qed.















(** C2 fails for [createlicense] and [deletelicense]: a license of
    three spaces, empty after trimming, is sent upstream as it stands, and
    the reply is the notification of success. *)
Theorem blank_license_reaches_upstream :
  let E := demo_env (answers (JObj [("success", JBool true)])) in
  let create := slash "1001" "createlicense" [("license", "   ")] [("days", 30)] in
  let delete := slash "1001" "deletelicense" [("license", "   ")] [] in
  JsString.trim "   " = "" /\
  map req_body (sent (snd (onInteractionCreate E create demo_start)))
    = [ [("type", "init"); ("ver", "2.0"); ("name", "demo"); ("ownerid", "owner42")];
        [("type", "add"); ("sessionid", "sess-1"); ("name", "demo");
         ("ownerid", "owner42"); ("key", "   "); ("days", "30")] ] /\
  map (fun r => map title (embeds r))
      (replies (snd (onInteractionCreate E create demo_start)))
    = [["✅ License Created"]] /\
  map req_body (sent (snd (onInteractionCreate E delete demo_start)))
    = [ [("type", "init"); ("ver", "2.0"); ("name", "demo"); ("ownerid", "owner42")];
        [("type", "delete"); ("sessionid", "sess-1"); ("name", "demo");
         ("ownerid", "owner42"); ("key", "   ")] ] /\
  map (fun r => map title (embeds r))
      (replies (snd (onInteractionCreate E delete demo_start)))
    = [["✅ License Deleted"]].
Proof. repeat split; reflexivity. Qed.

(** X1. The validation of the other commands.  For every command but
    [createlicense] and [deletelicense], a required string argument that
    is empty after trimming gives a validation-error notification, and
    nothing else: no request is sent. *)
Theorem blank_argument_rejected (E : Env) (i : Interaction) (st : State) (n : string) :
  isChatInputCommand i = true ->
  isAdmin E (user_id i) = true ->
  commandName i <> "createlicense" ->
  commandName i <> "deletelicense" ->
  In n (required_strings (commandName i)) ->
  JsString.trim (getString i n) = "" ->
  exists r : Reply,
    validation_error r /\ onInteractionCreate E i st = (Ok tt, with_reply st r).
Proof.
  intros Hchat Hadmin. rewrite (admin_handler E i st Hchat Hadmin).
  unfold command_switch, required_strings. cbv zeta.
  generalize (commandName i) as c. intros c.
  by_command c
    ltac:(intros Hcreate Hdelete Hin Hblank; try contradiction;
          cbn [In] in Hin;
          repeat match goal with
                 | H : _ \/ _ |- _ => destruct H as [<- | H]
                 | H : False |- _ => destruct H
                 end;
          unfold_cases; cbv zeta; rewrite Hblank;
          cbn [JsString.nonempty negb orb]; rewrite ?orb_true_r;
          unfold reply; eexists; (split; [eexists; reflexivity | reflexivity]))
    ltac:(cbn [In]; intros; contradiction).
Qed.

(** For X1: [uselicense] with a blank user name. *)
Lemma blank_argument_rejected_witness :
  let E := demo_env (answers (JObj [("success", JBool true)])) in
  let i := slash "1001" "uselicense" [("license", "ABC-123"); ("username", "  ")] [] in
  exists r : Reply,
    validation_error r /\
    onInteractionCreate E i demo_start = (Ok tt, with_reply demo_start r) /\
    sent (with_reply demo_start r) = [].
Proof.
  intros E i.
  destruct (blank_argument_rejected E i demo_start "username")
    as (r & Hr & Hi); try reflexivity; try discriminate.
  - cbn. auto.
  - exists r. repeat split; assumption.
Defined.


Lemma makeRequest_frame (E : Env) (type : string) (params : list (string * string))
  (st : State) :
  replies (snd (makeRequest E type params st)) = replies st.
Proof.
  destruct (getSessionId_total E st) as (s & new & u & Hs & _).
  destruct (Js.ToString s) as [sid | e] eqn:Hsid.
  - now rewrite (makeRequest_resolved E type params st _ s sid Hs Hsid).
  - now rewrite (makeRequest_unprintable E type params st _ s e Hs Hsid).
Qed.

(** The [switch] replies once when it completes, and not at all when it
    throws. *)
Lemma command_switch_replies (E : Env) (i : Interaction) (st : State) :
  match command_switch E i st with
  | (Ok _, st') => exists r : Reply, replies st' = (replies st ++ [r])%list
  | (Throw _, st') => replies st' = replies st
  end.
Proof.
  unfold command_switch. cbv zeta.
  generalize (commandName i) as c. intros c.
  by_command c
    ltac:(unfold_cases; by_validation;
          unfold getUserInfo, banUser, unbanUser, deleteUser, resetHWID,
            createLicense, deleteLicense, useLicense, extendSubscription, getStats;
          try (unfold reply; eexists; reflexivity);
          unfold bind at 1;
          match goal with
          | |- context [makeRequest E ?t ?p st] =>
              pose proof (makeRequest_frame E t p st) as Hframe;
              destruct (makeRequest E t p st) as [[result | e] st1]
          end; cbn [snd] in Hframe; [| exact Hframe];
          unfold result_reply; unfold_monad;
          repeat match goal with
                 | |- context [match ?x with Ok _ => _ | Throw _ => _ end] =>
                     destruct x
                 | |- context [if Js.truthy ?x then _ else _] =>
                     destruct (Js.truthy x)
                 end;
          cbn [replies]; rewrite ?Hframe; try reflexivity; eexists; reflexivity)
    ltac:(unfold case_default, reply; eexists; reflexivity).
Qed.






(** X4. A command name the [switch] does not know gets the "not
    implemented" notification, and nothing is sent. *)
Theorem unknown_command_not_implemented (E : Env) (i : Interaction) (st : State) :
  isChatInputCommand i = true ->
  isAdmin E (user_id i) = true ->
  ~ In (commandName i) known_commands ->
  onInteractionCreate E i st
    = (Ok tt, with_reply st
                {| embeds := [createEmbed "❌ Unknown Command"
                                (JStr "This command is not implemented.") red];
                   ephemeral := true |}).
Proof.
  intros Hchat Hadmin. rewrite (admin_handler E i st Hchat Hadmin).
  unfold command_switch, known_commands. cbv zeta.
  generalize (commandName i) as c. intros c.
  by_command c ltac:(intros H; exfalso; apply H; cbn; tauto)
             ltac:(intros _; reflexivity).
Qed.

(** For X4: the webhook command, which the client supports and the
    dispatcher does not. *)
Lemma unknown_command_not_implemented_witness :
  let E := demo_env (answers (JObj [("success", JBool true)])) in
  let i := slash "1001" "setwebhook" [("webhook", "https://example.org/hook")] [] in
  map (fun r => map title (embeds r)) (replies (snd (onInteractionCreate E i demo_start)))
    = [["❌ Unknown Command"]] /\
  sent (snd (onInteractionCreate E i demo_start)) = [].
Proof.
  intros E i.
  rewrite (unknown_command_not_implemented E i demo_start eq_refl eq_refl).
  - split; reflexivity.
  - cbn. intros H. repeat (destruct H as [H | H]; [discriminate H |]). exact H.
Defined.

(** X5. When the upstream accepts the init handshake (a 2xx answer whose
    JSON body has a true [success] and a non-empty [sessionid]), the
    client caches and returns the identifier the upstream issued, having
    sent that one request and drawn no random identifier. *)
Theorem init_success_caches_issued (E : Env) (st : State) (r : Response)
  (data success sessionid : jsval) :
  let cfg := config (keyAuth st) in
  sessionId (keyAuth st) = None ->
  upstream E (sent st) (init_request cfg) = Responds r ->
  200 <= status r <= 299 ->
  body r = Json data ->
  Js.get data "success" = Ok success -> Js.truthy success = true ->
  Js.get data "sessionid" = Ok sessionid -> Js.truthy sessionid = true ->
  getSessionId E st
    = (Ok sessionid, with_session st sessionid [init_request cfg] (uuids_drawn st)).
Proof.
  intros cfg Hnone Hup Hstatus Hbody Hsuccess Hts Hsid Htsid.
  rewrite (getSessionId_fresh E st Hnone). fold cfg. rewrite Hup. cbn [issued].
  replace ((200 <=? status r) && (status r <=? 299)) with true
    by (symmetry; apply andb_true_iff; rewrite !Z.leb_le; lia).
  now rewrite Hbody, Hsuccess, Hts, Hsid, Htsid.
Qed.

(** For X5: the first session of the demo upstream. *)
Lemma init_success_caches_issued_witness :
  exists st1 : State,
    getSessionId (demo_env (answers JNull)) demo_start = (Ok (JStr "sess-1"), st1) /\
    sessionId (keyAuth st1) = Some (JStr "sess-1") /\
    uuids_drawn st1 = 0%nat.
Proof.
  eexists. split.
  - apply (init_success_caches_issued (demo_env (answers JNull)) demo_start
             {| status := 200; statusText := "OK";
                body := Json (JObj [("success", JBool true);
                                    ("sessionid", JStr "sess-1")]) |}
             (JObj [("success", JBool true); ("sessionid", JStr "sess-1")])
             (JBool true) (JStr "sess-1")); try reflexivity.
    cbn. lia.
  - split; reflexivity.
Defined.

(** ** Strings: [trim] and [split] *)

Lemma length_append (a b : string) :
  String.length (a ++ b) = (String.length a + String.length b)%nat.
Proof. induction a as [| c a IH]; cbn; [reflexivity | now rewrite IH]. Qed.

Lemma append_nil_r (a : string) : (a ++ "")%string = a.
Proof. induction a as [| c a IH]; cbn; [reflexivity | now rewrite IH]. Qed.

Lemma list_ascii_of_string_app (a b : string) :
  list_ascii_of_string (a ++ b)
    = (list_ascii_of_string a ++ list_ascii_of_string b)%list.
Proof. induction a as [| c a IH]; cbn; [reflexivity | now rewrite IH]. Qed.

Lemma string_of_list_ascii_app (l1 l2 : list ascii) :
  string_of_list_ascii (l1 ++ l2)
    = (string_of_list_ascii l1 ++ string_of_list_ascii l2)%string.
Proof. induction l1 as [| c l1 IH]; cbn; [reflexivity | now rewrite IH]. Qed.

Lemma length_string_of_list_ascii (l : list ascii) :
  String.length (string_of_list_ascii l) = List.length l.
Proof. induction l as [| c l IH]; cbn; [reflexivity | now rewrite IH]. Qed.

Lemma length_list_ascii_of_string (a : string) :
  List.length (list_ascii_of_string a) = String.length a.
Proof. induction a as [| c a IH]; cbn; [reflexivity | now rewrite IH]. Qed.

Lemma reverse_involutive (a : string) : JsString.reverse (JsString.reverse a) = a.
Proof.
  unfold JsString.reverse.
  now rewrite list_ascii_of_string_of_list_ascii, rev_involutive,
    string_of_list_ascii_of_string.
Qed.

Lemma reverse_length (a : string) :
  String.length (JsString.reverse a) = String.length a.
Proof.
  unfold JsString.reverse.
  now rewrite length_string_of_list_ascii, length_rev, length_list_ascii_of_string.
Qed.

Lemma reverse_app (a b : string) :
  JsString.reverse (a ++ b) = (JsString.reverse b ++ JsString.reverse a)%string.
Proof.
  unfold JsString.reverse.
  now rewrite list_ascii_of_string_app, rev_app_distr, string_of_list_ascii_app.
Qed.

Lemma strip_prefix_app (p a r : string) :
  JsString.strip_prefix p a = Some r -> a = (p ++ r)%string.
Proof.
  revert a. induction p as [| c p IH]; intros a; cbn.
  - now intros [= ->].
  - destruct a as [| d a]; [discriminate |].
    destruct (Ascii.eqb_spec c d) as [-> |]; [| discriminate].
    intros H. now rewrite (IH _ H).
Qed.

Lemma strip_prefix_more (p a r w : string) :
  JsString.strip_prefix p a = Some r ->
  JsString.strip_prefix p (a ++ w) = Some (r ++ w)%string.
Proof.
  revert a. induction p as [| c p IH]; intros a; cbn.
  - now intros [= ->].
  - destruct a as [| d a]; [discriminate |]. cbn.
    destruct (Ascii.eqb c d); [apply IH | discriminate].
Qed.

Lemma strip_any_app (ps : list string) (a r : string) :
  JsString.strip_any ps a = Some r -> exists p, In p ps /\ a = (p ++ r)%string.
Proof.
  induction ps as [| p ps IH]; cbn; [discriminate |].
  destruct (JsString.strip_prefix p a) as [r' |] eqn:Hp.
  - intros [= ->]. exists p. split; [now left | now apply strip_prefix_app].
  - intros H. destruct (IH H) as (q & Hq & ->). exists q. split; [now right | reflexivity].
Qed.

Lemma strip_any_more (ps : list string) (a w : string) :
  JsString.strip_any ps (a ++ w) = None -> JsString.strip_any ps a = None.
Proof.
  induction ps as [| p ps IH]; cbn; [reflexivity |].
  destruct (JsString.strip_prefix p a) as [r |] eqn:Hp.
  - now rewrite (strip_prefix_more p a r w Hp).
  - destruct (JsString.strip_prefix p (a ++ w)); [discriminate | exact IH].
Qed.

Lemma strip_leading_suffix (ps : list string) (fuel : nat) (a : string) :
  exists pre, a = (pre ++ JsString.strip_leading ps fuel a)%string.
Proof.
  revert a. induction fuel as [| fuel IH]; intros a; cbn.
  - now exists "".
  - destruct (JsString.strip_any ps a) as [r |] eqn:Hr; [| now exists ""].
    destruct (strip_any_app ps a r Hr) as (p & _ & ->).
    destruct (IH r) as [pre Hpre]. exists (p ++ pre)%string.
    rewrite append_assoc. now rewrite <- Hpre.
Qed.

Lemma strip_leading_done (ps : list string) (fuel : nat) (a : string) :
  Forall (fun p => p <> "") ps ->
  (String.length a <= fuel)%nat ->
  JsString.strip_any ps (JsString.strip_leading ps fuel a) = None.
Proof.
  intros Hps. revert a. induction fuel as [| fuel IH]; intros a Hlen; cbn.
  - destruct a; [| cbn in Hlen; lia].
    clear Hlen. induction ps as [| p ps IHps]; cbn; [reflexivity |].
    inversion Hps as [| ? ? Hp Hps']; subst.
    destruct p; [contradiction |]. cbn. now apply IHps.
  - destruct (JsString.strip_any ps a) as [r |] eqn:Hr; [| exact Hr].
    apply IH. destruct (strip_any_app ps a r Hr) as (p & Hin & ->).
    rewrite length_append in Hlen.
    assert (p <> "") by (rewrite Forall_forall in Hps; now apply Hps).
    destruct p; [contradiction |]. cbn in Hlen. lia.
Qed.

Lemma strip_leading_fixed (ps : list string) (fuel : nat) (a : string) :
  JsString.strip_any ps a = None -> JsString.strip_leading ps fuel a = a.
Proof. intros H. destruct fuel; cbn; [reflexivity | now rewrite H]. Qed.

Lemma whitespace_nonempty :
  Forall (fun p => p <> "") JsString.whitespace /\
  Forall (fun p => p <> "") (map JsString.reverse JsString.whitespace).
Proof. split; repeat constructor; discriminate. Qed.

Lemma trimStart_leading (a : string) :
  JsString.strip_any JsString.whitespace (JsString.trimStart a) = None.
Proof.
  apply strip_leading_done; [apply whitespace_nonempty | apply le_n].
Qed.

Lemma trimEnd_trailing (a : string) :
  JsString.strip_any (map JsString.reverse JsString.whitespace)
    (JsString.reverse (JsString.trimEnd a)) = None.
Proof.
  unfold JsString.trimEnd. rewrite reverse_involutive.
  apply strip_leading_done; [apply whitespace_nonempty |].
  now rewrite reverse_length.
Qed.

Lemma trimEnd_prefix (a : string) :
  exists post, a = (JsString.trimEnd a ++ post)%string.
Proof.
  unfold JsString.trimEnd.
  destruct (strip_leading_suffix (map JsString.reverse JsString.whitespace)
              (String.length a) (JsString.reverse a)) as [pre Hpre].
  exists (JsString.reverse pre).
  rewrite <- reverse_app, <- Hpre. symmetry. apply reverse_involutive.
Qed.

Lemma trim_trimmed (a : string) : trimmed (JsString.trim a).
Proof.
  unfold JsString.trim. split; [| apply trimEnd_trailing].
  destruct (trimEnd_prefix (JsString.trimStart a)) as [post Hpost].
  apply strip_any_more with (w := post). rewrite <- Hpost. apply trimStart_leading.
Qed.

Lemma trimmed_fixed (a : string) : trimmed a -> JsString.trim a = a.
Proof.
  intros [Hl Ht]. unfold JsString.trim, JsString.trimStart.
  rewrite (strip_leading_fixed _ _ _ Hl). unfold JsString.trimEnd.
  rewrite (strip_leading_fixed _ _ _ Ht). apply reverse_involutive.
Qed.

Lemma trim_idempotent (a : string) :
  JsString.trim (JsString.trim a) = JsString.trim a.
Proof. apply trimmed_fixed, trim_trimmed. Qed.

Lemma split_comma_nonempty (a : string) : JsString.split_comma a <> [].
Proof.
  induction a as [| c a IH]; cbn; [discriminate |].
  destruct (Ascii.eqb c ","); [discriminate |].
  destruct (JsString.split_comma a); [contradiction | discriminate].
Qed.

Lemma split_comma_piece (a b : string) :
  comma_free a ->
  JsString.split_comma (a ++ String "," b) = a :: JsString.split_comma b.
Proof.
  unfold comma_free. induction a as [| c a IH]; cbn; intros Hfree.
  - reflexivity.
  - destruct (Ascii.eqb_spec c ",") as [-> | _]; [exfalso; apply Hfree; now left |].
    rewrite IH; [reflexivity | intros Hin; apply Hfree; now right].
Qed.

Lemma split_comma_whole (a : string) :
  comma_free a -> JsString.split_comma a = [a].
Proof.
  unfold comma_free. induction a as [| c a IH]; cbn; intros Hfree.
  - reflexivity.
  - destruct (Ascii.eqb_spec c ",") as [-> | _]; [exfalso; apply Hfree; now left |].
    rewrite IH; [reflexivity | intros Hin; apply Hfree; now right].
Qed.

Lemma split_comma_concat (pieces : list string) :
  pieces <> [] -> Forall comma_free pieces ->
  JsString.split_comma (String.concat "," pieces) = pieces.
Proof.
  induction pieces as [| a pieces IH]; [contradiction |]. intros _ Hfree.
  inversion Hfree as [| ? ? Ha Hrest]; subst.
  destruct pieces as [| b pieces].
  - cbn. now apply split_comma_whole.
  - change (String.concat "," (a :: b :: pieces))
      with (a ++ String "," (String.concat "," (b :: pieces)))%string.
    rewrite (split_comma_piece a _ Ha). f_equal. apply IH; [discriminate | assumption].
Qed.

(** ** The admin allow-list *)

Lemma env_or_empty (E : Env) (k : string) : env_or E k "" = getenv E k.
Proof. unfold env_or. now destruct (getenv E k). Qed.

Lemma nonempty_true (a : string) : JsString.nonempty a = true <-> a <> "".
Proof. destruct a; cbn; split; congruence. Qed.

Lemma In_adminIds (E : Env) (id : string) :
  In id (adminIds E) <->
  id <> "" /\
  exists raw, In raw (JsString.split_comma (getenv E "ADMIN_IDS")) /\
              JsString.trim raw = id.
Proof.
  unfold adminIds. rewrite env_or_empty, filter_In, in_map_iff, nonempty_true.
  split; [intros [(raw & Ha & Hb) Hn] | intros [Hn (raw & Ha & Hb)]]; split; eauto.
Qed.

(** X6. A caller is an administrator exactly when their identifier is
    not empty and is, after trimming, one of the comma-separated pieces
    of [ADMIN_IDS]; so an identifier with white space around it is never
    one. *)
Theorem isAdmin_characterised (E : Env) (userId : string) :
  (isAdmin E userId = true <->
   userId <> "" /\
   exists raw, In raw (JsString.split_comma (getenv E "ADMIN_IDS")) /\
               JsString.trim raw = userId) /\
  (~ trimmed userId -> isAdmin E userId = false).
Proof.
  assert (Hiff : isAdmin E userId = true <-> In userId (adminIds E)).
  { unfold isAdmin. rewrite existsb_exists. split.
    - intros (x & Hin & Heq). apply String.eqb_eq in Heq. now subst.
    - intros Hin. exists userId. split; [assumption | apply String.eqb_refl]. }
  split.
  - rewrite Hiff. apply In_adminIds.
  - intros Hnot. apply not_true_is_false. intros H.
    apply Hnot. apply Hiff, In_adminIds in H.
    destruct H as (_ & raw & _ & <-). apply trim_trimmed.
Qed.

(** X7. The allow-list reads back what was configured: when
    [ADMIN_IDS] is the pieces [raws] joined by commas (no piece holding a
    comma), the administrators are the pieces, trimmed, the empty ones
    dropped, in order; and they are [raws] itself when every piece is
    non-empty and has no white space around it. *)
Theorem adminIds_round_trip (E : Env) (raws : list string) :
  raws <> [] ->
  Forall comma_free raws ->
  process_env E "ADMIN_IDS" = Some (String.concat "," raws) ->
  adminIds E = filter JsString.nonempty (map JsString.trim raws) /\
  (Forall (fun id => trimmed id /\ id <> "") raws -> adminIds E = raws).
Proof.
  intros Hne Hfree Henv.
  assert (H : adminIds E = filter JsString.nonempty (map JsString.trim raws)).
  { unfold adminIds. rewrite env_or_empty. unfold getenv. rewrite Henv.
    now rewrite (split_comma_concat raws Hne Hfree). }
  split; [exact H |]. intros Hclean. rewrite H. clear - Hclean.
  induction Hclean as [| id raws [Ht Hid] _ IH]; cbn; [reflexivity |].
  rewrite (trimmed_fixed id Ht).
  destruct id; [contradiction |]. cbn. now rewrite IH.
Qed.

(** For X7: two identifiers, the second written after a space. *)
Lemma adminIds_round_trip_witness :
  adminIds (demo_env (answers JNull)) = ["1001"; "1002"].
Proof.
  destruct (adminIds_round_trip (demo_env (answers JNull)) ["1001"; " 1002"])
    as [H _].
  - discriminate.
  - repeat constructor; cbn; intros H;
      repeat (destruct H as [H | H]; [discriminate H |]); exact H.
  - reflexivity.
  - exact H.
Defined.

(** X8. The allow-list fails closed: when every piece of [ADMIN_IDS] is
    blank (the variable is missing, empty, or made of commas and white
    space) nobody is an administrator, and every slash command gets the
    access-denied reply and reaches no client operation. *)
Theorem blank_admin_list_denies_all (E : Env) (i : Interaction) (st : State) :
  Forall (fun raw => JsString.trim raw = "")
         (JsString.split_comma (getenv E "ADMIN_IDS")) ->
  isChatInputCommand i = true ->
  adminIds E = [] /\
  onInteractionCreate E i st = (Ok tt, with_reply st access_denied).
Proof.
  intros Hblank Hchat.
  assert (Hnone : adminIds E = []).
  { unfold adminIds. rewrite env_or_empty.
    induction Hblank as [| raw raws Hraw _ IH]; cbn; [reflexivity |].
    now rewrite Hraw. }
  split; [exact Hnone |].
  unfold onInteractionCreate, isAdmin. rewrite Hchat, Hnone. reflexivity.
Qed.

(** For X8: an allow-list of a comma between spaces. *)
Lemma blank_admin_list_denies_all_witness :
  let E := {| process_env := fun k => if String.eqb k "ADMIN_IDS" then Some " , "
                                      else None;
              upstream := fun _ _ => NetworkError "unreachable";
              randomUUID := fun _ => "";
              Date_parse := fun _ => None;
              format_date := en_US_UTC |} in
  let i := slash "1001" "stats" [] [] in
  onInteractionCreate E i demo_start = (Ok tt, with_reply demo_start access_denied).
Proof.
  intros E i.
  destruct (blank_admin_list_denies_all E i demo_start) as [_ H].
  - repeat constructor.
  - reflexivity.
  - exact H.
Defined.

(** ** The dispatcher and the client together *)

(** The [switch] leaves the client and the network as the validated
    operation leaves them, or as they were. *)
Lemma command_switch_footprint (E : Env) (i : Interaction) (st : State) :
  client_side (snd (command_switch E i st))
    = client_side match validated_call i with
                  | Some op => snd (perform E op st)
                  | None => st
                  end.
Proof.
  unfold validated_call, command_switch. cbv zeta.
  generalize (commandName i) as c. intros c.
  by_command c
    ltac:(unfold_cases; by_validation; cbn [perform];
          unfold getUserInfo, banUser, unbanUser, deleteUser, resetHWID,
            createLicense, deleteLicense, useLicense, extendSubscription, getStats;
          try (unfold reply; reflexivity);
          unfold bind at 1;
          match goal with
          | |- context [makeRequest E ?t ?p st] =>
              destruct (makeRequest E t p st) as [[result | e] st1]
          end; cbn [snd]; [| reflexivity];
          unfold result_reply; unfold_monad;
          repeat match goal with
                 | |- context [match ?x with Ok _ => _ | Throw _ => _ end] =>
                     destruct x
                 | |- context [if Js.truthy ?x then _ else _] =>
                     destruct (Js.truthy x)
                 end;
          reflexivity)
    ltac:(unfold case_default, reply; reflexivity).
Qed.

Lemma client_side_with_reply (st : State) (r : Reply) :
  client_side (with_reply st r) = client_side st.
Proof. reflexivity. Qed.

Lemma handler_ignores_other_interactions (E : Env) (i : Interaction) (st : State) :
  isChatInputCommand i = false -> onInteractionCreate E i st = (Ok tt, st).
Proof. intros H. unfold onInteractionCreate. now rewrite H. Qed.

(** X9. The handler reaches the client through exactly one operation,
    the one its command names, called with the validated arguments, and
    only for an administrator whose arguments pass validation; otherwise
    it leaves the client, the requests sent and the random source as they
    were.  Whatever the handler does after the operation changes none of
    these. *)
Theorem handler_footprint (E : Env) (i : Interaction) (st : State) :
  client_side (snd (onInteractionCreate E i st))
    = client_side
        match (if isChatInputCommand i && isAdmin E (user_id i)
               then validated_call i else None) with
        | Some op => snd (perform E op st)
        | None => st
        end.
Proof.
  destruct (isChatInputCommand i) eqn:Hchat; cbn [andb].
  - destruct (isAdmin E (user_id i)) eqn:Hadmin.
    + rewrite (admin_handler E i st Hchat Hadmin).
      rewrite <- command_switch_footprint.
      destruct (command_switch E i st) as [[a | e] st']; reflexivity.
    + unfold onInteractionCreate. rewrite Hchat, Hadmin. reflexivity.
  - now rewrite (handler_ignores_other_interactions E i st Hchat).
Qed.




(** ** The request primitive *)

(** X11. Once the session is resolved, [makeRequest] sends exactly one
    request of its own, whatever the answer (it never retries), and ends
    in one of two ways: it returns the parsed body as it stands, exactly
    when the upstream answers with a 2xx status and a body that parses;
    or it throws an [Error] whose message begins with
    [KeyAuth API request failed: ]. *)
Theorem makeRequest_outcomes (E : Env) (type : string)
  (params : list (string * string)) (st st1 : State) (s : jsval) (sid : string) :
  let req := operation_request (config (keyAuth st1)) sid type params in
  getSessionId E st = (Ok s, st1) ->
  Js.ToString s = Ok sid ->
  exists r : Result jsval,
    makeRequest E type params st = (r, sending st1 req) /\
    sent (sending st1 req) = (sent st1 ++ [req])%list /\
    (forall data, r = Ok data <->
       exists resp, upstream E (sent st1) req = Responds resp /\
                    200 <= status resp <= 299 /\ body resp = Json data) /\
    (forall e, r = Throw e ->
       exists m, e = Error ("KeyAuth API request failed: " ++ m)).
Proof.
  intros req Hs Hsid. eexists. split.
  { exact (makeRequest_resolved E type params st st1 s sid Hs Hsid). }
  split; [reflexivity |]. fold req. unfold completion.
  destruct (upstream E (sent st1) req) as [m | resp].
  - split.
    + intros data. split; [discriminate | intros (resp & H & _); discriminate].
    + intros e [= <-]. eexists; reflexivity.
  - destruct ((200 <=? status resp) && (status resp <=? 299)) eqn:Hok.
    + apply andb_true_iff in Hok. rewrite !Z.leb_le in Hok.
      destruct (body resp) as [m | data'] eqn:Hbody.
      * split.
        -- intros data. split; [discriminate |].
           intros (resp' & [= <-] & _ & H). congruence.
        -- intros e [= <-]. eexists; reflexivity.
      * split.
        -- intros data. split.
           ++ intros [= <-]. exists resp. auto.
           ++ intros (resp' & [= <-] & _ & H). congruence.
        -- discriminate.
    + apply andb_false_iff in Hok. rewrite !Z.leb_gt in Hok. split.
      * intros data. split; [discriminate |].
        intros (resp' & [= <-] & H & _). lia.
      * intros e [= <-]. eexists; reflexivity.
Qed.

(** For X11: a 2xx answer whose body does not parse. *)
Lemma makeRequest_outcomes_witness :
  let E := demo_env (fun _ => Responds {| status := 200; statusText := "OK";
                                          body := BadJson "Unexpected end of JSON input" |}) in
  exists (e : exn) (st2 : State),
    makeRequest E "stats" [] demo_start = (Throw e, st2) /\
    exists m, e = Error ("KeyAuth API request failed: " ++ m).
Proof.
  intros E.
  destruct (makeRequest_outcomes E "stats" [] demo_start
              (with_session demo_start (JStr "sess-1") [init_request demo_config] 0)
              (JStr "sess-1") "sess-1" eq_refl eq_refl)
    as (r & Hr & _ & Hok & Hthrow).
  destruct r as [data | e].
  - destruct (proj1 (Hok data) eq_refl) as (resp & Hup & _ & Hbody).
    compute in Hup. injection Hup as <-. discriminate Hbody.
  - exists e. eexists. split; [exact Hr | exact (Hthrow e eq_refl)].
Defined.

Lemma assoc_app {V} (k : string) (a b : list (string * V)) :
  Js.assoc k (a ++ b) = match Js.assoc k a with
                        | Some v => Some v
                        | None => Js.assoc k b
                        end.
Proof.
  induction a as [| [k' v] a IH]; cbn; [reflexivity |].
  now destruct (String.eqb k k').
Qed.

Lemma assoc_set_member {V} (k k' : string) (v : V) (l : list (string * V)) :
  Js.assoc k (Js.set_member k' v l)
    = if String.eqb k k' then Some v else Js.assoc k l.
Proof.
  induction l as [| [k0 v0] l IH]; cbn.
  - reflexivity.
  - destruct (String.eqb_spec k' k0) as [-> | Hne]; cbn.
    + now destruct (String.eqb k k0).
    + destruct (String.eqb_spec k k0) as [-> | ?].
      * destruct (String.eqb_spec k0 k') as [-> | ?]; [contradiction | reflexivity].
      * exact IH.
Qed.

Lemma keys_set_member {V} (k : string) (v : V) (l : list (string * V)) :
  map fst (Js.set_member k v l)
    = if existsb (String.eqb k) (map fst l) then map fst l
      else (map fst l ++ [k])%list.
Proof.
  induction l as [| [k0 v0] l IH]; cbn; [reflexivity |].
  destruct (String.eqb_spec k k0) as [-> | _]; cbn; [reflexivity |].
  rewrite IH. now destruct (existsb _ _).
Qed.

Lemma NoDup_set_member {V} (k : string) (v : V) (l : list (string * V)) :
  NoDup (map fst l) -> NoDup (map fst (Js.set_member k v l)).
Proof.
  intros H. rewrite keys_set_member.
  destruct (existsb (String.eqb k) (map fst l)) eqn:Hex; [exact H |].
  apply NoDup_app; [exact H | repeat constructor; intros [] |].
  intros x Hin [Heq | []]. subst x.
  assert (existsb (String.eqb k) (map fst l) = true); [| congruence].
  apply existsb_exists. exists k. split; [assumption | apply String.eqb_refl].
Qed.

Lemma fold_set_member {V} (entries l0 : list (string * V)) (k : string) :
  NoDup (map fst l0) ->
  NoDup (map fst (fold_left (fun o kv => Js.set_member (fst kv) (snd kv) o) entries l0)) /\
  Js.assoc k (fold_left (fun o kv => Js.set_member (fst kv) (snd kv) o) entries l0)
    = match Js.assoc k (rev entries) with
      | Some v => Some v
      | None => Js.assoc k l0
      end.
Proof.
  revert l0. induction entries as [| [k' v] entries IH]; intros l0 Hl0;
    cbn [fold_left fst snd].
  - split; [assumption | reflexivity].
  - destruct (IH (Js.set_member k' v l0) (NoDup_set_member k' v l0 Hl0)) as [Hn Ha].
    split; [exact Hn |]. rewrite Ha. cbn [rev fst snd]. rewrite assoc_app.
    destruct (Js.assoc k (rev entries)); [reflexivity |].
    rewrite assoc_set_member. cbn. now destruct (String.eqb k k').
Qed.

(** X12. In the body of a request of [makeRequest] no key occurs twice,
    and each key holds the value given last: an extra parameter named
    [type], [sessionid], [name] or [ownerid] replaces the value the
    client would send, and any other key of the extra parameters is
    added with the value of its last occurrence. *)
Theorem request_body_last_wins (E : Env) (type : string)
  (params : list (string * string)) (st st1 : State) (s : jsval) (sid : string) :
  let cfg := config (keyAuth st1) in
  getSessionId E st = (Ok s, st1) ->
  Js.ToString s = Ok sid ->
  exists req : Request,
    sent (snd (makeRequest E type params st)) = (sent st1 ++ [req])%list /\
    NoDup (map fst (req_body req)) /\
    forall k : string,
      Js.assoc k (req_body req)
        = match Js.assoc k (rev params) with
          | Some v => Some v
          | None => Js.assoc k [("type", type); ("sessionid", sid);
                                ("name", name cfg); ("ownerid", ownerid cfg)]
          end.
Proof.
  intros cfg Hs Hsid. eexists. split.
  { rewrite (makeRequest_resolved E type params st st1 s sid Hs Hsid). reflexivity. }
  unfold operation_request, post. cbn [req_body]. unfold Js.object_literal. fold cfg.
  split.
  - apply (fold_set_member _ [] "" (NoDup_nil _)).
  - intros k.
    destruct (fold_set_member
                ([("type", type); ("sessionid", sid); ("name", name cfg);
                  ("ownerid", ownerid cfg)] ++ params) [] k (NoDup_nil _)) as [_ ->].
    rewrite rev_app_distr, assoc_app.
    destruct (Js.assoc k (rev params)); [reflexivity |].
    cbn [rev app Js.assoc].
    destruct (String.eqb_spec k "type") as [-> | ?]; [reflexivity |].
    destruct (String.eqb_spec k "sessionid") as [-> | ?]; [reflexivity |].
    destruct (String.eqb_spec k "name") as [-> | ?]; [reflexivity |].
    destruct (String.eqb_spec k "ownerid") as [-> | ?]; [reflexivity |].
    cbn. repeat match goal with
                | H : k <> ?x |- _ => apply String.eqb_neq in H; rewrite H; clear H
                end. reflexivity.
Qed.

(** For X12: an extra parameter named [sessionid] replaces the session. *)
Lemma request_body_last_wins_witness :
  let E := demo_env (answers (JObj [("success", JBool true)])) in
  let st1 := with_session demo_start (JStr "sess-1") [init_request demo_config] 0 in
  exists req : Request,
    sent (snd (makeRequest E "use" [("key", "K1"); ("sessionid", "other")] demo_start))
      = (sent st1 ++ [req])%list /\
    Js.assoc "sessionid" (req_body req) = Some "other" /\
    Js.assoc "key" (req_body req) = Some "K1" /\
    Js.assoc "type" (req_body req) = Some "use".
Proof.
  intros E st1.
  destruct (request_body_last_wins E "use" [("key", "K1"); ("sessionid", "other")]
              demo_start st1 (JStr "sess-1") "sess-1" eq_refl eq_refl)
    as (req & Hsent & _ & Hlookup).
  exists req. split; [exact Hsent |]. rewrite !Hlookup. repeat split.
Defined.

(** ** What the dispatcher hands to the client, and what it shows *)



(** A reply the [switch] makes for all to see follows a result of the
    validated operation. *)
Lemma command_switch_public (E : Env) (i : Interaction) (st st' : State) (a : unit)
  (r : Reply) :
  command_switch E i st = (Ok a, st') ->
  replies st' = (replies st ++ [r])%list ->
  ephemeral r = false ->
  exists op result, validated_call i = Some op /\ fst (perform E op st) = Ok result.
Proof.
  unfold validated_call, command_switch. cbv zeta.
  generalize (commandName i) as c. intros c.
  by_command c
    ltac:(unfold_cases; by_validation;
          first
            [ unfold reply; intros Hsw Hr Heph; injection Hsw as _ Hst;
              subst st'; cbn [replies] in Hr;
              apply app_inv_head in Hr; injection Hr as <-; discriminate Heph
            | unfold getUserInfo, banUser, unbanUser, deleteUser, resetHWID,
                createLicense, deleteLicense, useLicense, extendSubscription, getStats;
              unfold bind at 1;
              match goal with
              | |- context [makeRequest E ?t ?p st] =>
                  destruct (makeRequest E t p st) as [[result | e] st1] eqn:Hm
              end; [| discriminate];
              intros _ _ _; eexists _, result; split; [reflexivity |];
              cbn [perform];
              unfold getUserInfo, banUser, unbanUser, deleteUser, resetHWID,
                createLicense, deleteLicense, useLicense, extendSubscription, getStats;
              rewrite Hm; reflexivity ])
    ltac:(unfold case_default, reply; intros Hsw Hr Heph; injection Hsw as _ Hst;
          subst st'; cbn [replies] in Hr;
          apply app_inv_head in Hr; injection Hr as <-; discriminate Heph).
Qed.

(** X14. A reply that is not ephemeral (one the whole channel sees) is
    only ever made for a result the upstream returned to an
    administrator's validated command: the denial, the validation
    errors, the unknown-command notice and the report of an exception
    are shown to the caller alone. *)
Theorem public_reply_follows_result (E : Env) (i : Interaction) (st : State)
  (r : Reply) :
  replies (snd (onInteractionCreate E i st)) = (replies st ++ [r])%list ->
  ephemeral r = false ->
  isChatInputCommand i = true /\ isAdmin E (user_id i) = true /\
  exists op result, validated_call i = Some op /\ fst (perform E op st) = Ok result.
Proof.
  intros Hr Heph.
  destruct (isChatInputCommand i) eqn:Hchat.
  2:{ rewrite (handler_ignores_other_interactions E i st Hchat) in Hr. cbn [snd] in Hr.
      exfalso. apply (f_equal (@List.length Reply)) in Hr.
      rewrite length_app in Hr. cbn in Hr. lia. }
  destruct (isAdmin E (user_id i)) eqn:Hadmin.
  2:{ unfold onInteractionCreate in Hr. rewrite Hchat, Hadmin in Hr.
      cbn [negb snd reply replies] in Hr.
      apply app_inv_head in Hr. injection Hr as <-. discriminate Heph. }
  split; [reflexivity |]. split; [reflexivity |].
  rewrite (admin_handler E i st Hchat Hadmin) in Hr.
  pose proof (command_switch_replies E i st) as Hone.
  destruct (command_switch E i st) as [[a | e] st'] eqn:Hsw; cbn [snd] in Hr.
  - exact (command_switch_public E i st st' a r Hsw Hr Heph).
  - cbn [with_reply replies] in Hr. rewrite Hone in Hr.
    apply app_inv_head in Hr. injection Hr as <-. discriminate Heph.
Qed.

(** For X14: the result of a ban is shown to the channel. *)
Lemma public_reply_follows_result_witness :
  let E := demo_env (answers (JObj [("success", JBool false);
                                    ("message", JStr "User not found")])) in
  let i := slash "1001" "ban" [("username", "bob")] [] in
  exists op result, validated_call i = Some op /\ fst (perform E op demo_start) = Ok result.
Proof.
  intros E i.
  destruct (public_reply_follows_result E i demo_start
              {| embeds := [createEmbed "❌ Error" (JStr "User not found") red];
                 ephemeral := false |} eq_refl eq_refl) as (_ & _ & H).
  exact H.
Defined.

(** ** The command definitions and the dispatcher *)





(** ** The subscriptions of the user embed *)









(** ** The start of the bot *)

Lemma KeyAuthClient_new_configured (E : Env) (c : KeyAuthClient) :
  KeyAuthClient_new E = Ok c ->
  ~ unset E "KEYAUTH_NAME" /\ ~ unset E "KEYAUTH_OWNER_ID".
Proof.
  unfold KeyAuthClient_new. cbn [name ownerid]. rewrite !env_or_empty.
  intros H. split; intros [Hu | Hu]; unfold getenv in H; rewrite Hu in H;
    cbn [JsString.nonempty negb orb] in H; rewrite ?orb_true_r in H; discriminate H.
Qed.

Lemma getenv_unset (E : Env) (k : string) : unset E k -> getenv E k = "".
Proof. intros [H | H]; unfold getenv; now rewrite H. Qed.

(** X18. The four mandatory configuration values are checked before
    anything is done: when the application name, the owner id, the bot
    token or the bot application id is missing or empty, the process does
    not come to run, and it has neither registered a command nor logged
    in. *)
Theorem mandatory_configuration (E : Env) (P : Platform) :
  unset E "KEYAUTH_NAME" \/ unset E "KEYAUTH_OWNER_ID" \/
  unset E "DISCORD_TOKEN" \/ unset E "DISCORD_CLIENT_ID" ->
  fst (index_main E P) <> Running /\
  puts (snd (index_main E P)) = [] /\
  logins (snd (index_main E P)) = [].
Proof.
  intros H. unfold index_main.
  destruct (KeyAuthClient_new E) as [c | e] eqn:Hnew.
  2:{ cbn. repeat split. discriminate. }
  destruct (KeyAuthClient_new_configured E c Hnew) as [Hn Ho].
  destruct H as [H | [H | H]]; [contradiction | contradiction |].
  unfold start, start_body.
  destruct H as [H | H].
  - rewrite (getenv_unset E _ H). cbn. repeat split. discriminate.
  - rewrite (getenv_unset E _ H). cbn [JsString.nonempty negb].
    destruct (negb (JsString.nonempty (getenv E "DISCORD_TOKEN")));
      cbn; repeat split; discriminate.
Qed.

(** For X18: the bot token is missing. *)
Lemma mandatory_configuration_witness :
  index_main (demo_env (answers JNull)) demo_platform
    = (Exited 1,
       {| puts := []; logins := [];
          console := [ErrorLog "Failed to start bot:"
                        (Error "DISCORD_TOKEN environment variable is required")] |}) /\
  fst (index_main (demo_env (answers JNull)) demo_platform) <> Running.
Proof.
  split; [reflexivity |].
  apply (mandatory_configuration (demo_env (answers JNull)) demo_platform).
  right. right. left. left. reflexivity.
Defined.

(** X19. With the bot token and the application id set, [start]
    registers the commands exactly once, all of them, under the token, for
    the guild when [GUILD_ID] is set and globally otherwise, and then logs
    in once with the token; a refused registration is logged and does not
    stop the login; the bot runs exactly when the login succeeds, and the
    process exits with code 1 otherwise. *)
Theorem start_registers_then_logs_in (E : Env) (P : Platform) (b : Boot)
  (token clientId : string) :
  process_env E "DISCORD_TOKEN" = Some token -> token <> "" ->
  process_env E "DISCORD_CLIENT_ID" = Some clientId -> clientId <> "" ->
  let route := if JsString.nonempty (getenv E "GUILD_ID")
               then ApplicationGuildCommands clientId (getenv E "GUILD_ID")
               else ApplicationCommands clientId in
  puts (snd (start E P b)) = (puts b ++ [(token, route, commands)])%list /\
  logins (snd (start E P b)) = (logins b ++ [token])%list /\
  (fst (start E P b) = Running <-> client_login P token = None) /\
  (fst (start E P b) <> Running -> fst (start E P b) = Exited 1) /\
  (forall e, rest_put P token route commands = Some e ->
             In (ErrorLog "Error registering commands:" e) (console (snd (start E P b)))).
Proof.
  intros Ht Htoken Hc Hclient route.
  assert (Hgt : getenv E "DISCORD_TOKEN" = token) by (unfold getenv; now rewrite Ht).
  assert (Hgc : getenv E "DISCORD_CLIENT_ID" = clientId) by (unfold getenv; now rewrite Hc).
  unfold start, start_body. rewrite Hgt, Hgc.
  destruct token; [contradiction |]. destruct clientId; [contradiction |].
  cbn [JsString.nonempty negb].
  unfold login, registerCommands, put_commands. rewrite Hgt, Hgc. subst route.
  destruct (JsString.nonempty (getenv E "GUILD_ID"));
    match goal with
    | |- context [rest_put P ?t ?r ?c] => destruct (rest_put P t r c) as [e |] eqn:Hput
    end;
    destruct (client_login P _) as [e' |];
    cbn; repeat split; try discriminate; try congruence;
    try (intros e0 [= <-]); try (intros _; reflexivity);
    rewrite ?in_app_iff; cbn; tauto.
Qed.

(** For X19: the registration is refused, the login accepted. *)
Lemma start_registers_then_logs_in_witness :
  let E := {| process_env := fun k =>
                if String.eqb k "DISCORD_TOKEN" then Some "token-1"
                else if String.eqb k "DISCORD_CLIENT_ID" then Some "4711"
                else if String.eqb k "GUILD_ID" then Some "99"
                else None;
              upstream := fun _ _ => NetworkError "unreachable";
              randomUUID := fun _ => "";
              Date_parse := fun _ => None;
              format_date := en_US_UTC |} in
  let b := {| puts := []; logins := []; console := [] |} in
  fst (start E demo_platform b) = Running /\
  puts (snd (start E demo_platform b))
    = [("token-1", ApplicationGuildCommands "4711" "99", commands)] /\
  logins (snd (start E demo_platform b)) = ["token-1"].
Proof.
  intros E b.
  destruct (start_registers_then_logs_in E demo_platform b "token-1" "4711"
              eq_refl ltac:(discriminate) eq_refl ltac:(discriminate))
    as (Hputs & Hlogins & Hrun & _).
  split; [apply Hrun; reflexivity |]. split; [exact Hputs | exact Hlogins].
Defined.
